(** * Video Transcriber (app.py): a shallow embedding and its properties

    The application is one Streamlit script.  Every run of the script
    reads the session state, instantiates the input widgets, runs the
    handler of the button that was pressed, and renders the transcript,
    the download control and the activity feed.

    The embedding follows the script:
    - Python [str] values are lists of Unicode code points, so that
      [str.strip], [str.splitlines] and [str.encode("utf-8")] can be
      written out as Python defines them;
    - the two collaborators (yt-dlp and faster-whisper), the file system
      and [pathlib] are operations of an interface over an explicit world;
    - the script itself lives in a state-and-exception monad whose state
      holds the session state, the widget keys instantiated so far in the
      run, the elements rendered so far, the world and the record of
      collaborator calls. *)

From Stdlib Require Import ZArith List Lia Bool String Ascii.
From Stdlib Require Import DecimalString DecimalZ.
Import ListNotations.

Open Scope Z_scope.

(** ** Python strings *)

Module PyStr.

(** A code point; a [str] is a sequence of them. *)
Definition codepoint := Z.
Definition str := list codepoint.

(** An ASCII literal of the source, as a [str]. *)
Definition lit (s : string) : str :=
  map (fun a => Z.of_N (N_of_ascii a)) (list_ascii_of_string s).

(** [str.isspace] on one character (CPython's [_PyUnicode_IsWhitespace]). *)
Definition isspace (c : codepoint) : bool :=
  ((9 <=? c) && (c <=? 13)) || ((28 <=? c) && (c <=? 32))
  || (c =? 133) || (c =? 160) || (c =? 5760)
  || ((8192 <=? c) && (c <=? 8202))
  || (c =? 8232) || (c =? 8233) || (c =? 8239) || (c =? 8287)
  || (c =? 12288).

(** The line boundaries of [str.splitlines]
    (CPython's [_PyUnicode_IsLinebreak]). *)
Definition islinebreak (c : codepoint) : bool :=
  ((10 <=? c) && (c <=? 13)) || ((28 <=? c) && (c <=? 30))
  || (c =? 133) || (c =? 8232) || (c =? 8233).

Fixpoint dropwhile (p : codepoint -> bool) (s : str) : str :=
  match s with
  | [] => []
  | c :: s' => if p c then dropwhile p s' else s
  end.

Definition lstrip (s : str) : str := dropwhile isspace s.
Definition rstrip (s : str) : str := rev (dropwhile isspace (rev s)).

(** [s.strip()] *)
Definition strip (s : str) : str := rstrip (lstrip s).

(** Truth value of a [str] in a condition: non-empty. *)
Definition truthy (s : str) : bool :=
  match s with [] => false | _ :: _ => true end.

(** [s.splitlines()]: [cur] holds the characters of the line being read,
    last one first.  A carriage return followed by a line feed is one
    boundary; text after the last boundary is a line only when it is not
    empty. *)
Fixpoint splitlines_from (cur : str) (s : str) : list str :=
  match s with
  | [] => match cur with [] => [] | _ :: _ => [rev cur] end
  | c :: rest =>
      if islinebreak c then
        match rest with
        | c' :: rest' =>
            if (c =? 13) && (c' =? 10)
            then rev cur :: splitlines_from [] rest'
            else rev cur :: splitlines_from [] rest
        | [] => rev cur :: splitlines_from [] rest
        end
      else splitlines_from (c :: cur) rest
  end.

Definition splitlines (s : str) : list str := splitlines_from [] s.

(** What is left of the text after the line boundary [c]: a line feed
    that follows a carriage return belongs to the boundary. *)
Definition after_break (c : codepoint) (rest : str) : str :=
  match rest with
  | c' :: rest' => if (c =? 13) && (c' =? 10) then rest' else rest
  | [] => []
  end.

(** [t] is [raw] without the whitespace at its two ends. *)
Definition is_trim_of (raw t : str) : Prop :=
  (exists pre post,
      raw = pre ++ t ++ post
      /\ forallb isspace pre = true /\ forallb isspace post = true)
  /\ (forall c u, t = c :: u -> isspace c = false)
  /\ (forall c u, t = u ++ [c] -> isspace c = false).

(** [sep.join(parts)] *)
Fixpoint join (sep : str) (parts : list str) : str :=
  match parts with
  | [] => []
  | [p] => p
  | p :: ps => p ++ sep ++ join sep ps
  end.

(** [str(n)] for an [int]. *)
Definition str_of_int (n : Z) : str :=
  lit (NilEmpty.string_of_int (Z.to_int n)).

(** Unicode scalar values: code points that are not surrogates. *)
Definition is_scalar (c : codepoint) : bool :=
  ((0 <=? c) && (c <? 55296)) || ((57344 <=? c) && (c <? 1114112)).

Definition well_formed (s : str) : Prop := Forall (fun c => is_scalar c = true) s.

End PyStr.
Import PyStr.


(** ** Bytes and UTF-8 *)

Definition byte := Z.
Definition bytes := list byte.

(** The UTF-8 form of one code point, as CPython's encoder writes it:
    one to four bytes; a surrogate (and anything that is not a code point)
    has none. *)
Definition utf8_char (c : codepoint) : option bytes :=
  if c <? 0 then None
  else if c <? 128 then Some [c]
  else if c <? 2048 then
    Some [Z.lor 192 (Z.shiftr c 6); Z.lor 128 (Z.land c 63)]
  else if (55296 <=? c) && (c <? 57344) then None
  else if c <? 65536 then
    Some [Z.lor 224 (Z.shiftr c 12);
          Z.lor 128 (Z.land (Z.shiftr c 6) 63);
          Z.lor 128 (Z.land c 63)]
  else if c <? 1114112 then
    Some [Z.lor 240 (Z.shiftr c 18);
          Z.lor 128 (Z.land (Z.shiftr c 12) 63);
          Z.lor 128 (Z.land (Z.shiftr c 6) 63);
          Z.lor 128 (Z.land c 63)]
  else None.

Fixpoint utf8 (s : str) : option bytes :=
  match s with
  | [] => Some []
  | c :: s' =>
      match utf8_char c, utf8 s' with
      | Some b, Some bs => Some (b ++ bs)
      | _, _ => None
      end
  end.

(** Reading UTF-8 back: each code point is rebuilt from its lead byte
    and the continuation bytes that follow it. *)
Fixpoint utf8_decode (bs : bytes) : option str :=
  match bs with
  | [] => Some []
  | b0 :: rest =>
      if b0 <? 128 then option_map (cons b0) (utf8_decode rest)
      else if b0 <? 224 then
        match rest with
        | b1 :: rest' =>
            option_map (cons ((b0 - 192) * 64 + (b1 - 128)))
                       (utf8_decode rest')
        | _ => None
        end
      else if b0 <? 240 then
        match rest with
        | b1 :: b2 :: rest' =>
            option_map
              (cons ((b0 - 224) * 4096 + (b1 - 128) * 64 + (b2 - 128)))
              (utf8_decode rest')
        | _ => None
        end
      else
        match rest with
        | b1 :: b2 :: b3 :: rest' =>
            option_map
              (cons ((b0 - 240) * 262144 + (b1 - 128) * 4096
                     + (b2 - 128) * 64 + (b3 - 128)))
              (utf8_decode rest')
        | _ => None
        end
  end.

(** ** Exceptions and results *)

(** An exception object: its class name, whether the class derives from
    [Exception] (what [except Exception] catches) and [str(exc)]. *)
Record exn := mkExn {
  exn_class : string;
  exn_is_Exception : bool;
  exn_text : str
}.

Inductive result (A : Type) : Type :=
| Ok (a : A)
| Raise (e : exn).
Arguments Ok {A} a.
Arguments Raise {A} e.

Definition UnicodeEncodeError : exn :=
  mkExn "UnicodeEncodeError" true
        (lit "'utf-8' codec can't encode character: surrogates not allowed").

(** [s.encode("utf-8")] *)
Definition encode_utf8 (s : str) : result bytes :=
  match utf8 s with
  | Some bs => Ok bs
  | None => Raise UnicodeEncodeError
  end.

(** Streamlit refuses a write to a session-state key once a widget with
    that key has been instantiated in the current run. *)
Definition StreamlitAPIException (key : str) : exn :=
  mkExn "StreamlitAPIException" true
        (lit "`st.session_state." ++ key
         ++ lit "` cannot be modified after the widget with key `"
         ++ key ++ lit "` is instantiated.").

(** [st.rerun()] leaves the script through a control-flow exception that
    does not derive from [Exception]. *)
Definition RerunException : exn := mkExn "RerunException" false [].

(** ** os.path.splitext *)

Module OsPath.

(** [p.rfind(c)]: the highest index holding [c], or -1. *)
Fixpoint rfind_from (i : Z) (c : codepoint) (p : str) (found : Z) : Z :=
  match p with
  | [] => found
  | x :: p' => rfind_from (i + 1) c p' (if x =? c then i else found)
  end.

Definition rfind (c : codepoint) (p : str) : Z := rfind_from 0 c p (-1).

Definition extsep : codepoint := 46.

(** The loop of [genericpath._splitext] that skips the leading dots of
    the file name: it answers [true] when some character in
    [filenameIndex .. dotIndex) is not a dot; [n] is the number of
    positions left to look at. *)
Fixpoint name_has_non_dot (n : nat) (p : str) (filenameIndex : Z) : bool :=
  match n with
  | O => false
  | S n' =>
      if negb (nth (Z.to_nat filenameIndex) p 0 =? extsep) then true
      else name_has_non_dot n' p (filenameIndex + 1)
  end.

(** [genericpath._splitext(p, sep, altsep, extsep)] *)
Definition _splitext (p : str) (sep : codepoint) (altsep : option codepoint)
  : str * str :=
  let sepIndex := rfind sep p in
  let sepIndex :=
    match altsep with
    | Some a => Z.max sepIndex (rfind a p)
    | None => sepIndex
    end in
  let dotIndex := rfind extsep p in
  if (sepIndex <? dotIndex)
     && name_has_non_dot (Z.to_nat (dotIndex - (sepIndex + 1))) p (sepIndex + 1)
  then (firstn (Z.to_nat dotIndex) p, skipn (Z.to_nat dotIndex) p)
  else (p, []).

End OsPath.
Import OsPath.

(** ** The collaborators *)

(** A recognised segment; the script reads its text only. *)
Record Segment := mkSegment { text : str }.

Record Postprocessor := mkPostprocessor {
  pp_key : str;
  pp_preferredcodec : str
}.

(** The options dictionary handed to [YoutubeDL]. *)
Record YdlOptions := mkYdlOptions {
  opt_format : str;
  opt_outtmpl : str;
  opt_noplaylist : bool;
  opt_quiet : bool;
  opt_no_warnings : bool;
  opt_postprocessors : list Postprocessor
}.

(** What the script calls and does not implement: the downloader, the
    speech model, [pathlib], the temporary directory and the platform's
    path separators.  Every operation that touches the outside takes the
    world and returns the next one; one that can fail returns a
    [result]. *)
Class Collaborators := {
  World : Type;
  (* pathlib *)
  Path : Type;
  path_of : str -> Path;                  (* Path(s) *)
  path_str : Path -> str;                 (* str(p) *)
  path_div : Path -> str -> Path;         (* p / s *)
  path_exists : Path -> World -> bool;    (* p.exists() *)
  write_bytes : Path -> bytes -> World -> World * result unit;
  (* os.path *)
  os_sep : codepoint;
  os_altsep : option codepoint;
  (* tempfile.TemporaryDirectory *)
  tmp_create : World -> World * str;
  tmp_cleanup : str -> World -> World;
  (* yt-dlp *)
  Info : Type;
  extract_info : YdlOptions -> str -> World -> World * result Info;
  prepare_filename : YdlOptions -> Info -> World -> World * result str;
  (* faster-whisper, as [load_model] obtains it through
     [@st.cache_resource]: the world holds Streamlit's resource cache, so
     the model is built by the first call of the process and the cached
     object is what later calls return *)
  Model : Type;
  whisper_model : str -> str -> World -> World * result Model;
  model_transcribe :
    Model -> str -> bool -> Z -> World -> World * result (list Segment)
}.

(** ** Session state, rendered elements and the script monad *)

(** [st.session_state] once lines 17-24 have run: the four keys are
    present. *)
Record Session := mkSession {
  uploader_version : Z;
  links_input : str;
  transcript : str;
  status_log : list str
}.

(** The session state of a new session (the defaults of lines 17-24). *)
Definition new_session : Session := mkSession 0 [] [] [].

(** What a run puts on the page, in order. *)
Inductive Element :=
| Title (body : str)
| Caption (body : str)
| FileUploader (label : str) (types : list str) (key : str)
| TextArea (label : str) (value : str) (key : option str)
| Button (label : str)
| Subheader (body : str)
| Spinner (body : str)
| Warning (body : str)
| Error (body : str)
| Divider
| DownloadButton (label : str) (data : bytes) (file_name : str) (mime : str)
| WriteItem (body : str)
| InfoBox (body : str).

(** A call that reached a collaborator.  [CallLoadModel] is a call of
    [load_model()] (line 33); whether that call builds the model or finds
    it in the resource cache is the world's affair. *)
Inductive Call :=
| CallExtractInfo (url : str)
| CallPrepareFilename
| CallLoadModel
| CallTranscribe (path : str)
| CallWriteBytes (path : str).

Section App.

Context {C : Collaborators}.

(** The state of one run of the script. *)
Record Run := mkRun {
  session : Session;
  widget_keys : list str;   (* keys of the widgets instantiated so far *)
  ui : list Element;        (* elements rendered so far *)
  world : World;
  calls : list Call         (* collaborator calls made so far *)
}.

Definition M (A : Type) : Type := Run -> Run * result A.

Definition ret {A} (a : A) : M A := fun r => (r, Ok a).

Definition bind {A B} (m : M A) (k : A -> M B) : M B :=
  fun r =>
    match m r with
    | (r', Ok a) => k a r'
    | (r', Raise e) => (r', Raise e)
    end.

Definition raise {A} (e : exn) : M A := fun r => (r, Raise e).

Notation "x <- m ;; k" := (bind m (fun x => k))
  (at level 61, m at next level, right associativity).
Notation "m ;; k" := (bind m (fun _ => k))
  (at level 61, right associativity).

(** [try: body  except Exception as exc: handler(exc)] *)
Definition try_except {A} (body : M A) (handler : exn -> M A) : M A :=
  fun r =>
    match body r with
    | (r', Ok a) => (r', Ok a)
    | (r', Raise e) =>
        if exn_is_Exception e then handler e r' else (r', Raise e)
    end.

Definition with_session (f : Session -> Session) (r : Run) : Run :=
  mkRun (f (session r)) (widget_keys r) (ui r) (world r) (calls r).

(** Rendering an element. *)
Definition emit (e : Element) : M unit :=
  fun r =>
    (mkRun (session r) (widget_keys r) (ui r ++ [e]) (world r) (calls r),
     Ok tt).

(** Instantiating a widget under a key. *)
Definition register_widget (key : str) : M unit :=
  fun r =>
    (mkRun (session r) (key :: widget_keys r) (ui r) (world r) (calls r),
     Ok tt).

(** A call to a collaborator: it moves the world and is recorded. *)
Definition collaborate {A} (c : Call) (op : World -> World * result A) : M A :=
  fun r =>
    let (w, res) := op (world r) in
    (mkRun (session r) (widget_keys r) (ui r) w (calls r ++ [c]), res).

(** Reading an attribute of [st.session_state]. *)
Definition session_get {A} (field : Session -> A) : M A :=
  fun r => (r, Ok (field (session r))).

Fixpoint str_eqb (a b : str) : bool :=
  match a, b with
  | [], [] => true
  | x :: a', y :: b' => (x =? y) && str_eqb a' b'
  | _, _ => false
  end.

Definition instantiated (key : str) (r : Run) : bool :=
  existsb (str_eqb key) (widget_keys r).

(** [st.session_state.<key> = value]: refused with a
    [StreamlitAPIException] when a widget with that key has been
    instantiated in this run. *)
Definition session_set (key : str) (update : Session -> Session) : M unit :=
  fun r =>
    if instantiated key r then (r, Raise (StreamlitAPIException key))
    else (with_session update r, Ok tt).

Definition set_uploader_version (v : Z) (s : Session) : Session :=
  mkSession v (links_input s) (transcript s) (status_log s).
Definition set_links_input (v : str) (s : Session) : Session :=
  mkSession (uploader_version s) v (transcript s) (status_log s).
Definition set_transcript (v : str) (s : Session) : Session :=
  mkSession (uploader_version s) (links_input s) v (status_log s).

(** [st.session_state.status_log.append(item)]: the list object held by
    the session state is extended in place. *)
Definition status_log_append (item : str) : M unit :=
  fun r =>
    (with_session
       (fun s => mkSession (uploader_version s) (links_input s) (transcript s)
                           (status_log s ++ [item])) r,
     Ok tt).

(** [with tempfile.TemporaryDirectory() as tmp: body]; the directory is
    removed on the way out, also when [body] raises. *)
Definition with_temporary_directory {A} (body : str -> M A) : M A :=
  fun r =>
    let (w, tmp) := tmp_create (world r) in
    let r1 := mkRun (session r) (widget_keys r) (ui r) w (calls r) in
    let (r2, res) := body tmp r1 in
    (mkRun (session r2) (widget_keys r2) (ui r2)
           (tmp_cleanup tmp (world r2)) (calls r2),
     res).

(** ** The functions of app.py *)

(** Lines 27-29: [WhisperModel("small", compute_type="int8")] behind
    [@st.cache_resource].  Every transcription calls [load_model()]; the
    cache that makes all calls but the first return the model already
    built is part of the world the collaborator works on. *)
Definition load_model : M Model :=
  collaborate CallLoadModel (whisper_model (lit "small") (lit "int8")).

Definition newline : str := [10].

Definition transcribe_media (path : str) : M str :=
  model <- load_model ;;
  segments <- collaborate (CallTranscribe path)
                (model_transcribe model path true 5) ;;
  ret (join newline
         (map (fun segment => strip (text segment))
              (filter (fun segment => truthy (strip (text segment))) segments))).

Definition ydl_options (out_template : str) : YdlOptions :=
  mkYdlOptions (lit "bestaudio/best") out_template true true true
    [mkPostprocessor (lit "FFmpegExtractAudio") (lit "mp3")].

Definition splitext (p : str) : str * str :=
  OsPath._splitext p os_sep os_altsep.

Definition download_link_media (url : str) (out_dir : Path) : M Path :=
  let out_template := path_str (path_div out_dir (lit "%(title).120s.%(ext)s")) in
  let options := ydl_options out_template in
  info <- collaborate (CallExtractInfo url) (extract_info options url) ;;
  downloaded <- collaborate CallPrepareFilename (prepare_filename options info) ;;
  let base := fst (splitext downloaded) in
  let mp3_candidate := path_of (base ++ lit ".mp3") in
  exists_ <- (fun r => (r, Ok (path_exists mp3_candidate (world r)))) ;;
  ret (if exists_ : bool then mp3_candidate else path_of downloaded).

Definition split_links (text : str) : list str :=
  map strip (filter (fun line => truthy (strip line)) (splitlines text)).

(** ** The script *)

(** The file object the upload widget returns. *)
Record UploadedFile := mkUploadedFile {
  name : str;
  content : bytes
}.

(** What the browser sends with a run: the file held by the upload widget
    and which of the four buttons report a click. *)
Record Inputs := mkInputs {
  uploaded_file : option UploadedFile;
  click_transcribe_upload : bool;
  click_transcribe_links : bool;
  click_clear_links : bool;
  click_clear_transcript : bool
}.

Definition when (b : bool) (m : M unit) : M unit := if b then m else ret tt.

Fixpoint for_each {A} (body : A -> M unit) (items : list A) : M unit :=
  match items with
  | [] => ret tt
  | item :: rest => body item ;; for_each body rest
  end.

(** [f"uploader_{st.session_state.uploader_version}"] *)
Definition uploader_key (version : Z) : str :=
  lit "uploader_" ++ str_of_int version.

Definition links_key : str := lit "links_input".

(** Lines 62-79: the two input widgets. *)
Definition input_widgets : M unit :=
  emit (Subheader (lit "Upload video")) ;;
  version <- session_get uploader_version ;;
  emit (FileUploader (lit "Drag and drop any video file")
          (map lit ["mp4"; "mov"; "mkv"; "avi"; "webm"; "m4v"; "mp3"; "wav"; "m4a"]%string)
          (uploader_key version)) ;;
  register_widget (uploader_key version) ;;
  emit (Subheader (lit "Video links")) ;;
  links <- session_get links_input ;;
  emit (TextArea (lit "Paste one link per line (YouTube, TikTok, etc.)")
          links (Some links_key)) ;;
  register_widget links_key.

(** Lines 84-96. *)
Definition transcribe_upload_handler (uploaded : option UploadedFile) : M unit :=
  match uploaded with
  | None => emit (Warning (lit "Please drop a video/audio file first."))
  | Some file =>
      with_temporary_directory (fun tmp =>
        let input_path := path_div (path_of tmp) (name file) in
        collaborate (CallWriteBytes (path_str input_path))
          (write_bytes input_path (content file)) ;;
        emit (Spinner (lit "Transcribing uploaded media...")) ;;
        try_except
          (text <- transcribe_media (path_str input_path) ;;
           session_set (lit "transcript") (set_transcript text) ;;
           status_log_append ([9989] ++ lit " Transcribed upload: " ++ name file))
          (fun exc =>
             emit (Error (lit "Failed to transcribe uploaded media: "
                          ++ exn_text exc))))
  end.

Definition section_of (url text : str) : str :=
  lit "### Source: " ++ url ++ newline ++ text.

Definition success_entry (url : str) : str :=
  [9989] ++ lit " Transcribed link: " ++ url.

Definition failure_entry (url : str) (exc : exn) : str :=
  [10060] ++ lit " Failed link: " ++ url ++ lit " (" ++ exn_text exc ++ lit ")".

(** Lines 106-114: the loop over the links; [collected] is the list the
    loop appends to, [idx] the number of the link at the head. *)
Fixpoint links_loop (total : Z) (tmp_dir : Path) (idx : Z) (links : list str)
  (collected : list str) : M (list str) :=
  match links with
  | [] => ret collected
  | url :: rest =>
      emit (Spinner (lit "Downloading + transcribing link " ++ str_of_int idx
                     ++ lit "/" ++ str_of_int total ++ lit "...")) ;;
      collected' <-
        try_except
          (media_path <- download_link_media url tmp_dir ;;
           text <- transcribe_media (path_str media_path) ;;
           let collected := collected ++ [section_of url text] in
           status_log_append (success_entry url) ;;
           ret collected)
          (fun exc =>
             status_log_append (failure_entry url exc) ;;
             ret collected) ;;
      links_loop total tmp_dir (idx + 1) rest collected'
  end.

(** Lines 99-116. *)
Definition transcribe_links_handler : M unit :=
  pasted <- session_get links_input ;;
  let links := split_links pasted in
  match links with
  | [] => emit (Warning (lit "Please paste at least one link first."))
  | _ :: _ =>
      with_temporary_directory (fun tmp =>
        collected <-
          links_loop (Z.of_nat (List.length links)) (path_of tmp) 1 links [] ;;
        match collected with
        | [] => ret tt
        | _ :: _ =>
            session_set (lit "transcript")
              (set_transcript (join (newline ++ newline) collected))
        end)
  end.

(** Lines 119-122. *)
Definition clear_links_handler : M unit :=
  session_set links_key (set_links_input []) ;;
  version <- session_get uploader_version ;;
  session_set (lit "uploader_version") (set_uploader_version (version + 1)) ;;
  status_log_append ([129529] ++ lit " Cleared links and uploader content") ;;
  raise RerunException.

(** Lines 125-126. *)
Definition clear_transcript_handler : M unit :=
  session_set (lit "transcript") (set_transcript []) ;;
  status_log_append ([129532] ++ lit " Cleared transcript").

(** [items[start:]] for a list, with Python's treatment of a negative or
    too large [start]. *)
Definition slice_from {A} (start : Z) (items : list A) : list A :=
  let len := Z.of_nat (List.length items) in
  let start := if start <? 0 then Z.max (start + len) 0 else Z.min start len in
  skipn (Z.to_nat start) items.

(** Lines 128-135: the transcript area.  The value is text the app can
    receive (what the browser and the collaborators deliver encodes);
    Streamlit's handling of a value that holds a lone surrogate is not
    part of the embedding. *)
Definition render_transcript : M unit :=
  emit Divider ;;
  emit (Subheader (lit "Transcript")) ;;
  value <- session_get transcript ;;
  emit (TextArea (lit "Transcribed text (copy this)") value None).

(** Lines 137-143: the download control. *)
Definition render_download : M unit :=
  shown <- session_get transcript ;;
  if truthy shown then
    value <- session_get transcript ;;
    data <- (fun r => (r, encode_utf8 value)) ;;
    emit (DownloadButton (lit "Download transcript (.txt)") data
            (lit "transcript.txt") (lit "text/plain"))
  else ret tt.

(** The items the activity feed writes, in order:
    [reversed(status_log[-10:])]. *)
Definition activity_items (log : list str) : list str :=
  rev (slice_from (-10) log).

(** Lines 145-148: the activity feed. *)
Definition render_activity : M unit :=
  log <- session_get status_log ;;
  match log with
  | [] => ret tt
  | _ :: _ =>
      emit (Subheader (lit "Activity")) ;;
      for_each (fun item => emit (WriteItem item)) (activity_items log)
  end.

(** One run of app.py. *)
Definition script (inp : Inputs) : M unit :=
  emit (Title ([127916] ++ lit " Universal Video Transcriber")) ;;
  emit (Caption (lit "Drop a video file or paste YouTube/TikTok/other links, then transcribe and copy the text.")) ;;
  input_widgets ;;
  emit (Button (lit "Transcribe Uploaded Video")) ;;
  when (click_transcribe_upload inp)
       (transcribe_upload_handler (uploaded_file inp)) ;;
  emit (Button (lit "Transcribe Links")) ;;
  when (click_transcribe_links inp) transcribe_links_handler ;;
  emit (Button (lit "Clear Links + Drag Content")) ;;
  when (click_clear_links inp) clear_links_handler ;;
  emit (Button (lit "Clear Transcript")) ;;
  when (click_clear_transcript inp) clear_transcript_handler ;;
  render_transcript ;;
  render_download ;;
  render_activity ;;
  emit (InfoBox (lit "Tip: The first transcription may be slower while the speech model downloads. For very long videos, leave the tab open until processing completes.")).

(** The state in which a run starts. *)
Definition start_run (s : Session) (w : World) : Run := mkRun s [] [] w [].

(** ** What a batch of links yields, seen from the world *)

(** What a computation does to the world alone: the world it leaves, the
    calls it makes and its result, when run from a blank run state. *)
Definition on_world {A} (m : M A) (w : World) : World * list Call * result A :=
  let (r, res) := m (start_run new_session w) in (world r, calls r, res).

Definition world_after {A} (m : M A) (w : World) : World :=
  fst (fst (on_world m w)).
Definition calls_of {A} (m : M A) (w : World) : list Call :=
  snd (fst (on_world m w)).
Definition result_of {A} (m : M A) (w : World) : result A :=
  snd (on_world m w).

(** A computation that touches nothing but the world (and the record of
    calls): from any run state it does what it does from a blank one. *)
Definition world_only {A} (m : M A) : Prop :=
  forall r,
    m r = (mkRun (session r) (widget_keys r) (ui r)
                 (world_after m (world r)) (calls r ++ calls_of m (world r)),
           result_of m (world r)).

(** The body of the [try] for one link, up to the text: download, then
    transcribe. *)
Definition fetch_text (url : str) (tmp_dir : Path) : M str :=
  media_path <- download_link_media url tmp_dir ;;
  transcribe_media (path_str media_path).

(** The outcome of every link of a batch, in order, each attempt starting
    in the world the previous one left. *)
Fixpoint link_outcomes (tmp_dir : Path) (links : list str) (w : World)
  : list (str * result str) :=
  match links with
  | [] => []
  | url :: rest =>
      (url, result_of (fetch_text url tmp_dir) w)
      :: link_outcomes tmp_dir rest (world_after (fetch_text url tmp_dir) w)
  end.

(** The transcript section of each link that succeeded. *)
Fixpoint sections_of (outcomes : list (str * result str)) : list str :=
  match outcomes with
  | [] => []
  | (url, Ok text) :: rest => section_of url text :: sections_of rest
  | (_, Raise _) :: rest => sections_of rest
  end.

(** The status-log entry of a link. *)
Definition entry_of (outcome : str * result str) : str :=
  match outcome with
  | (url, Ok _) => success_entry url
  | (url, Raise exc) => failure_entry url exc
  end.

(** A link failed in the way the loop survives: with an [Exception]. *)
Definition survivable (outcome : str * result str) : Prop :=
  match outcome with
  | (_, Ok _) => True
  | (_, Raise exc) => exn_is_Exception exc = true
  end.

Definition succeeded (outcome : str * result str) : bool :=
  match outcome with
  | (_, Ok _) => true
  | (_, Raise _) => false
  end.

(** The new transcript after a batch: the joined sections when there is
    one, the old transcript otherwise. *)
Definition transcript_after (old : str) (outcomes : list (str * result str))
  : str :=
  match sections_of outcomes with
  | [] => old
  | _ :: _ => join (newline ++ newline) (sections_of outcomes)
  end.

(** The world a batch leaves after its links, before the temporary
    directory is removed. *)
Fixpoint world_after_links (tmp_dir : Path) (links : list str) (w : World)
  : World :=
  match links with
  | [] => w
  | url :: rest =>
      world_after_links tmp_dir rest (world_after (fetch_text url tmp_dir) w)
  end.

(** The collaborator calls of a batch, in order. *)
Fixpoint link_calls (tmp_dir : Path) (links : list str) (w : World)
  : list Call :=
  match links with
  | [] => []
  | url :: rest =>
      calls_of (fetch_text url tmp_dir) w
      ++ link_calls tmp_dir rest (world_after (fetch_text url tmp_dir) w)
  end.

Definition is_extract_info (c : Call) : bool :=
  match c with
  | CallExtractInfo _ => true
  | _ => false
  end.

(** The spinner of link number [idx] of [total] (line 107). *)
Definition link_spinner (idx total : Z) : Element :=
  Spinner (lit "Downloading + transcribing link " ++ str_of_int idx
           ++ lit "/" ++ str_of_int total ++ lit "...").

(** The spinners of a batch whose first link has number [idx]. *)
Fixpoint link_spinners (total idx : Z) (links : list str) : list Element :=
  match links with
  | [] => []
  | _ :: rest => link_spinner idx total :: link_spinners total (idx + 1) rest
  end.

(** A computation that only renders (and instantiates widgets): however
    it ends, the session state, the world and the record of calls are as
    before, and the page has only grown. *)
Definition page_only {A} (m : M A) : Prop :=
  forall r r' res,
    m r = (r', res) ->
    session r' = session r /\ world r' = world r /\ calls r' = calls r
    /\ exists added, ui r' = ui r ++ added.

(** A link as [split_links] delivers it: not empty, trimmed, on one
    line. *)
Definition clean_link (link : str) : Prop :=
  link <> [] /\ strip link = link
  /\ (forall c, In c link -> islinebreak c = false).

(** The segments' texts as the specification words them: trimmed, the
    empty ones dropped. *)
Definition trimmed_nonempty_texts (segments : list Segment) : list str :=
  filter truthy (map (fun segment => strip (text segment)) segments).

End App.

(** ** A simulated set of collaborators

    A small deterministic stand-in for the outside, used to run the script
    on concrete inputs: the world is the list of files on disk; the
    downloader refuses the link [bad], leaves [raw.webm] unconverted for
    the link [raw] and leaves the converted [clip.mp3] for any other; the
    speech model recognises the same three segments in every file. *)

Module Sim.

Definition prefix_of (tmp : str) (p : str) : bool :=
  str_eqb tmp (firstn (List.length tmp) p).

Definition sim_extract_info (options : YdlOptions) (url : str) (w : list str)
  : list str * result str :=
  if str_eqb url (lit "bad") then
    (w, Raise (mkExn "DownloadError" true (lit "Unsupported URL: bad")))
  else
    let dir := firstn (List.length (opt_outtmpl options) - 21) (opt_outtmpl options) in
    if str_eqb url (lit "raw") then
      ((dir ++ lit "raw.webm") :: w, Ok (dir ++ lit "raw.webm"))
    else ((dir ++ lit "clip.mp3") :: w, Ok (dir ++ lit "clip.webm")).

Definition sim_segments : list Segment :=
  [mkSegment (lit " hello "); mkSegment (lit "  "); mkSegment (lit "world")].

#[export] Instance collaborators : Collaborators := {|
  World := list str;
  Path := str;
  path_of := fun s => s;
  path_str := fun p => p;
  path_div := fun p s => p ++ lit "/" ++ s;
  path_exists := fun p w => existsb (str_eqb p) w;
  write_bytes := fun p _ w => (p :: w, Ok tt);
  os_sep := 47;
  os_altsep := None;
  tmp_create := fun w => (w, lit "/tmp/t");
  tmp_cleanup := fun tmp w => filter (fun p => negb (prefix_of tmp p)) w;
  Info := str;
  extract_info := sim_extract_info;
  prepare_filename := fun _ info w => (w, Ok info);
  Model := unit;
  whisper_model := fun _ _ w => (w, Ok tt);
  model_transcribe := fun _ _ _ _ w => (w, Ok sim_segments)
|}.

(** A session with three pasted links, the second of which fails, and an
    earlier transcript. *)
Definition pasted : str :=
  lit "https://a" ++ [10] ++ lit "  bad " ++ [13; 10] ++ [10] ++ lit "raw".

Definition session0 : Session :=
  mkSession 0 pasted (lit "old") [lit "first"].

(** The run state when the handlers are reached: both input widgets are
    instantiated. *)
Definition at_handlers (s : Session) : Run :=
  mkRun s [links_key; uploader_key (uploader_version s)] [] [] [].

End Sim.

(** ** Collaborators that fail

    As [Sim], except that the speech model fails with [e] on the file
    [raw.webm], that the file [locked.mp4] cannot be written, and that
    the downloader delivers [song.mp3] for the link [song] and a file
    without extension for the link [noext]. *)

Module Faulty.

Definition OSError : exn :=
  mkExn "OSError" true (lit "[Errno 28] No space left on device").

Definition RuntimeError : exn :=
  mkExn "RuntimeError" true (lit "decoder failed").

Definition KeyboardInterrupt : exn := mkExn "KeyboardInterrupt" false [].

Definition faulty_extract_info (options : YdlOptions) (url : str)
  (w : list str) : list str * result str :=
  let dir :=
    firstn (List.length (opt_outtmpl options) - 21) (opt_outtmpl options) in
  if str_eqb url (lit "song") then
    ((dir ++ lit "song.mp3") :: w, Ok (dir ++ lit "song.mp3"))
  else if str_eqb url (lit "noext") then
    ((dir ++ lit "noext") :: w, Ok (dir ++ lit "noext"))
  else Sim.sim_extract_info options url w.

Definition collaborators (e : exn) : Collaborators := {|
  World := list str;
  Path := str;
  path_of := fun s => s;
  path_str := fun p => p;
  path_div := fun p s => p ++ lit "/" ++ s;
  path_exists := fun p w => existsb (str_eqb p) w;
  write_bytes := fun p _ w =>
    if str_eqb p (lit "/tmp/t/locked.mp4") then (w, Raise OSError)
    else (p :: w, Ok tt);
  os_sep := 47;
  os_altsep := None;
  tmp_create := fun w => (w, lit "/tmp/t");
  tmp_cleanup := fun tmp w => filter (fun p => negb (Sim.prefix_of tmp p)) w;
  Info := str;
  extract_info := faulty_extract_info;
  prepare_filename := fun _ info w => (w, Ok info);
  Model := unit;
  whisper_model := fun _ _ w => (w, Ok tt);
  model_transcribe := fun _ path _ _ w =>
    if str_eqb path (lit "/tmp/t/raw.webm") then (w, Raise e)
    else (w, Ok Sim.sim_segments)
|}.

Definition at_handlers (e : exn) (s : Session) : @Run (collaborators e) :=
  @mkRun (collaborators e) s [links_key; uploader_key (uploader_version s)]
         [] [] [].

End Faulty.

(** * Properties *)

Example split_links_example :
  split_links Sim.pasted = [lit "https://a"; lit "bad"; lit "raw"].
Proof. reflexivity. Qed.

Example splitlines_example :
  splitlines (lit "a" ++ [10] ++ [13; 10] ++ lit "b " ++ [10])
  = [lit "a"; []; lit "b "].
Proof. reflexivity. Qed.

Example strip_example : strip (lit "  a b  ") = lit "a b".
Proof. reflexivity. Qed.

Example str_of_int_example : str_of_int 120 = lit "120" /\ str_of_int 0 = lit "0".
Proof. split; reflexivity. Qed.

Example splitext_example :
  OsPath._splitext (lit "/tmp/t.d/clip.webm") 47 None
  = (lit "/tmp/t.d/clip", lit ".webm")
  /\ OsPath._splitext (lit "/tmp/t.d/.hidden") 47 None
     = (lit "/tmp/t.d/.hidden", [])
  /\ OsPath._splitext (lit "/tmp/t.d/clip") 47 None
     = (lit "/tmp/t.d/clip", []).
Proof. repeat split; reflexivity. Qed.

Example utf8_example :
  utf8 [65; 233; 9989; 129529] = Some [65; 195; 169; 226; 156; 133; 240; 159; 167; 185]
  /\ utf8 [55296] = None.
Proof. split; reflexivity. Qed.

Example clear_links_click_example :
  let '(r, res) :=
    script (mkInputs None false false true false)
           (@start_run Sim.collaborators Sim.session0 []) in
  res = Raise (StreamlitAPIException links_key)
  /\ session r = Sim.session0
  /\ exn_text (StreamlitAPIException links_key)
     = lit "`st.session_state.links_input` cannot be modified after the widget with key `links_input` is instantiated.".
Proof. vm_compute. repeat split. Qed.

Example script_links_example :
  let '(r, res) :=
    script (mkInputs None false true false false)
           (@start_run Sim.collaborators Sim.session0 []) in
  res = Ok tt
  /\ List.length (status_log (session r)) = 4%nat
  /\ skipn 18 (ui r)
     = [WriteItem ([9989] ++ lit " Transcribed link: raw");
        WriteItem ([10060] ++ lit " Failed link: bad (Unsupported URL: bad)");
        WriteItem ([9989] ++ lit " Transcribed link: https://a");
        WriteItem (lit "first");
        InfoBox (lit "Tip: The first transcription may be slower while the speech model downloads. For very long videos, leave the tab open until processing completes.")].
Proof. vm_compute. repeat split. Qed.

Example links_run_example :
  let '(r, res) := transcribe_links_handler (Sim.at_handlers Sim.session0) in
  res = Ok tt
  /\ transcript (session r)
     = lit "### Source: https://a" ++ [10] ++ lit "hello" ++ [10] ++ lit "world"
       ++ [10; 10]
       ++ lit "### Source: raw" ++ [10] ++ lit "hello" ++ [10] ++ lit "world"
  /\ status_log (session r)
     = [lit "first";
        [9989] ++ lit " Transcribed link: https://a";
        [10060] ++ lit " Failed link: bad (Unsupported URL: bad)";
        [9989] ++ lit " Transcribed link: raw"]
  /\ calls r
     = [CallExtractInfo (lit "https://a"); CallPrepareFilename;
        CallLoadModel; CallTranscribe (lit "/tmp/t/clip.mp3");
        CallExtractInfo (lit "bad");
        CallExtractInfo (lit "raw"); CallPrepareFilename;
        CallLoadModel; CallTranscribe (lit "/tmp/t/raw.webm")].
Proof. vm_compute. repeat split. Qed.

(** ** Strings *)

Lemma str_eqb_eq (a b : str) : str_eqb a b = true <-> a = b.
Proof.
  revert b; induction a as [|x a IH]; intros [|y b]; simpl;
    try (split; [discriminate | discriminate]); try tauto.
  rewrite andb_true_iff, Z.eqb_eq, IH. split.
  - intros [-> ->]; reflexivity.
  - intros [= -> ->]; auto.
Qed.

Lemma str_eqb_refl (a : str) : str_eqb a a = true.
Proof. apply str_eqb_eq; reflexivity. Qed.

Lemma truthy_false (s : str) : truthy s = false <-> s = [].
Proof. destruct s; simpl; split; congruence. Qed.

Lemma truthy_true (s : str) : truthy s = true <-> s <> [].
Proof. destruct s; simpl; split; congruence. Qed.

Lemma dropwhile_split (p : codepoint -> bool) (s : str) :
  exists pre, s = pre ++ dropwhile p s /\ forallb p pre = true.
Proof.
  induction s as [|c s [pre [E F]]]; simpl.
  - exists []; auto.
  - destruct (p c) eqn:Pc.
    + exists (c :: pre); simpl; rewrite Pc, F; split; [f_equal; exact E | reflexivity].
    + exists []; auto.
Qed.

Lemma dropwhile_head (p : codepoint -> bool) (s : str) c t :
  dropwhile p s = c :: t -> p c = false.
Proof.
  induction s as [|x s IH]; simpl; [discriminate|].
  destruct (p x) eqn:Px; [exact IH|].
  intros [= -> _]; exact Px.
Qed.

Lemma dropwhile_all (p : codepoint -> bool) (s : str) :
  forallb p s = true -> dropwhile p s = [].
Proof.
  induction s as [|c s IH]; simpl; [reflexivity|].
  destruct (p c); simpl; [exact IH | discriminate].
Qed.

Lemma forallb_rev (p : codepoint -> bool) (s : str) :
  forallb p (rev s) = forallb p s.
Proof.
  induction s as [|c s IH]; simpl; [reflexivity|].
  rewrite forallb_app, IH; simpl. rewrite andb_true_r, andb_comm; reflexivity.
Qed.

(** [strip] removes a run of whitespace at each end and nothing else. *)
Lemma strip_decompose (s : str) :
  exists pre post,
    s = pre ++ strip s ++ post
    /\ forallb isspace pre = true /\ forallb isspace post = true.
Proof.
  unfold strip, rstrip, lstrip.
  destruct (dropwhile_split isspace s) as [pre [E F]].
  destruct (dropwhile_split isspace (rev (dropwhile isspace s))) as [q [E' F']].
  exists pre, (rev q). repeat split; auto.
  - rewrite <- rev_app_distr, <- E', rev_involutive. exact E.
  - rewrite forallb_rev; exact F'.
Qed.

(** What [strip] leaves does not start with whitespace, *)
Lemma strip_head (s : str) c t : strip s = c :: t -> isspace c = false.
Proof.
  intros H. destruct (strip_decompose s) as [pre [post [E _]]].
  unfold strip, rstrip in *. fold (lstrip s) in *.
  destruct (dropwhile_split isspace (rev (lstrip s))) as [q [E' _]].
  apply (f_equal (@rev _)) in E'. rewrite rev_involutive, rev_app_distr in E'.
  rewrite H in E'. unfold lstrip in E'. simpl in E'.
  eapply dropwhile_head; exact E'.
Qed.

(** nor end with it. *)
Lemma strip_last (s : str) c t : strip s = t ++ [c] -> isspace c = false.
Proof.
  unfold strip, rstrip. intros H.
  apply (f_equal (@rev _)) in H. rewrite rev_involutive, rev_app_distr in H.
  simpl in H. eapply dropwhile_head; exact H.
Qed.

Lemma strip_nil_iff (s : str) : strip s = [] <-> forallb isspace s = true.
Proof.
  split.
  - intros H. destruct (strip_decompose s) as [pre [post [E [F G]]]].
    rewrite H in E. rewrite E. simpl. rewrite forallb_app, F, G; reflexivity.
  - intros H. unfold strip, rstrip, lstrip.
    rewrite (dropwhile_all _ _ H). reflexivity.
Qed.

Lemma islinebreak_isspace (c : codepoint) :
  islinebreak c = true -> isspace c = true.
Proof.
  unfold islinebreak, isspace. intros H.
  repeat rewrite orb_true_iff in H. repeat rewrite andb_true_iff in H.
  repeat rewrite orb_true_iff. repeat rewrite andb_true_iff.
  repeat rewrite Z.leb_le in *. repeat rewrite Z.eqb_eq in *.
  lia.
Qed.

Lemma splitlines_from_break cur c rest :
  islinebreak c = true ->
  splitlines_from cur (c :: rest)
  = rev cur :: splitlines_from [] (after_break c rest).
Proof.
  intros H. simpl. rewrite H. unfold after_break.
  destruct rest as [|c' rest']; [reflexivity|].
  destruct ((c =? 13) && (c' =? 10)); reflexivity.
Qed.

Lemma splitlines_from_char cur c rest :
  islinebreak c = false ->
  splitlines_from cur (c :: rest) = splitlines_from (c :: cur) rest.
Proof. intros H. simpl. rewrite H. reflexivity. Qed.

Lemma after_break_length c rest :
  (List.length (after_break c rest) <= List.length rest)%nat.
Proof.
  destruct rest as [|c' rest']; simpl; [lia|].
  destruct ((c =? 13) && (c' =? 10)); simpl; lia.
Qed.

Lemma after_break_incl c rest x : In x (after_break c rest) -> In x rest.
Proof.
  destruct rest as [|c' rest']; simpl; [tauto|].
  destruct ((c =? 13) && (c' =? 10)); simpl; tauto.
Qed.

Lemma after_break_keeps c rest x :
  In x rest -> islinebreak x = false -> In x (after_break c rest).
Proof.
  destruct rest as [|c' rest']; simpl; [tauto|].
  destruct ((c =? 13) && (c' =? 10)) eqn:E; simpl; [|tauto].
  intros [<-|H] NB; [|exact H].
  apply andb_true_iff in E. destruct E as [_ E]. apply Z.eqb_eq in E.
  subst c'. discriminate NB.
Qed.

(** Every character of a line comes from the text. *)
Lemma splitlines_from_chars (n : nat) :
  forall s cur line c,
    (List.length s <= n)%nat ->
    In line (splitlines_from cur s) -> In c line -> In c cur \/ In c s.
Proof.
  induction n as [|n IH]; intros s cur line c Len Hl Hc.
  - destruct s; [|simpl in Len; lia].
    simpl in Hl. destruct cur; [destruct Hl|].
    destruct Hl as [<-|[]]. left. apply in_rev; exact Hc.
  - destruct s as [|x rest].
    + simpl in Hl. destruct cur; [destruct Hl|].
      destruct Hl as [<-|[]]. left. apply in_rev; exact Hc.
    + simpl in Len. destruct (islinebreak x) eqn:B.
      * rewrite splitlines_from_break in Hl by exact B.
        destruct Hl as [<-|Hl].
        -- left. apply in_rev; exact Hc.
        -- right. right.
           destruct (IH (after_break x rest) [] line c) as [[]|H]; auto.
           ++ pose proof (after_break_length x rest). lia.
           ++ eapply after_break_incl; exact H.
      * rewrite splitlines_from_char in Hl by exact B.
        destruct (IH rest (x :: cur) line c) as [[<-|H]|H]; auto.
        -- lia.
        -- right; left; reflexivity.
        -- right; right; exact H.
Qed.

Lemma splitlines_chars (s line : str) c :
  In line (splitlines s) -> In c line -> In c s.
Proof.
  intros Hl Hc.
  destruct (splitlines_from_chars (List.length s) s [] line c) as [[]|H]; auto.
Qed.

(** A character of the line being read ends up in a line. *)
Lemma splitlines_from_pending :
  forall s cur c,
    In c cur -> exists line, In line (splitlines_from cur s) /\ In c line.
Proof.
  induction s as [|x rest IH]; intros cur c Hc.
  - simpl. destruct cur; [destruct Hc|].
    eexists; split; [left; reflexivity|]. apply -> in_rev; exact Hc.
  - destruct (islinebreak x) eqn:B.
    + rewrite splitlines_from_break by exact B.
      eexists; split; [left; reflexivity|]. apply -> in_rev; exact Hc.
    + rewrite splitlines_from_char by exact B.
      apply IH. right; exact Hc.
Qed.

(** Every character of the text that is not a line boundary is in a
    line. *)
Lemma splitlines_from_covers (n : nat) :
  forall s cur c,
    (List.length s <= n)%nat ->
    In c s -> islinebreak c = false ->
    exists line, In line (splitlines_from cur s) /\ In c line.
Proof.
  induction n as [|n IH]; intros s cur c Len Hc NB.
  - destruct s; [destruct Hc | simpl in Len; lia].
  - destruct s as [|x rest]; [destruct Hc|].
    simpl in Len. destruct (islinebreak x) eqn:B.
    + rewrite splitlines_from_break by exact B.
      destruct Hc as [->|Hc]; [congruence|].
      destruct (IH (after_break x rest) [] c) as [line [H1 H2]]; auto.
      * pose proof (after_break_length x rest). lia.
      * apply after_break_keeps; assumption.
      * exists line; split; [right; exact H1 | exact H2].
    + rewrite splitlines_from_char by exact B.
      destruct Hc as [->|Hc].
      * apply splitlines_from_pending. left; reflexivity.
      * apply IH; auto. lia.
Qed.

Lemma filter_nil_iff {A} (p : A -> bool) (l : list A) :
  filter p l = [] <-> forall x, In x l -> p x = false.
Proof.
  induction l as [|a l IH]; simpl.
  - split; [intros _ x [] | reflexivity].
  - destruct (p a) eqn:Pa.
    + split; [discriminate|]. intros H. specialize (H a (or_introl eq_refl)). congruence.
    + rewrite IH. split.
      * intros H x [<-|Hx]; auto.
      * intros H x Hx. apply H. right; exact Hx.
Qed.

(** No link is found exactly when every line of the text is blank. *)
Lemma split_links_nil_iff_lines (pasted : str) :
  split_links pasted = [] <->
  (forall line, In line (splitlines pasted) -> strip line = []).
Proof.
  unfold split_links. split.
  - intros H line Hl.
    destruct (filter (fun line => truthy (strip line)) (splitlines pasted)) eqn:F;
      [|discriminate].
    apply truthy_false. exact (proj1 (filter_nil_iff _ _) F line Hl).
  - intros H.
    replace (filter (fun line => truthy (strip line)) (splitlines pasted))
      with (@nil str); [reflexivity|].
    symmetry. apply filter_nil_iff. intros line Hl.
    apply truthy_false. apply H; exact Hl.
Qed.

(** No link is found exactly when the text is whitespace throughout. *)
Lemma split_links_nil_iff_blank (pasted : str) :
  split_links pasted = [] <-> forallb isspace pasted = true.
Proof.
  rewrite split_links_nil_iff_lines. split.
  - intros H. apply forallb_forall. intros c Hc.
    destruct (islinebreak c) eqn:B; [apply islinebreak_isspace; exact B|].
    destruct (splitlines_from_covers (List.length pasted) pasted [] c)
      as [line [H1 H2]]; auto.
    specialize (H line H1). apply strip_nil_iff in H.
    exact (proj1 (forallb_forall _ _) H c H2).
  - intros H line Hl. apply strip_nil_iff. apply forallb_forall. intros c Hc.
    apply (proj1 (forallb_forall _ _) H).
    eapply splitlines_chars; eassumption.
Qed.

(** Every link found is non-blank and trimmed. *)
Lemma split_links_nonblank (pasted link : str) :
  In link (split_links pasted) -> link <> [].
Proof.
  unfold split_links. intros H. apply in_map_iff in H.
  destruct H as [line [<- H]]. apply filter_In in H. destruct H as [_ H].
  apply truthy_true; exact H.
Qed.

Lemma strip_is_trim (s : str) : is_trim_of s (strip s).
Proof.
  split; [exact (strip_decompose s)|]. split.
  - intros c u H. eapply strip_head; exact H.
  - intros c u H. eapply strip_last; exact H.
Qed.

Lemma dropwhile_app_all (p : codepoint -> bool) (pre s : str) :
  forallb p pre = true -> dropwhile p (pre ++ s) = dropwhile p s.
Proof.
  induction pre as [|c pre IH]; simpl; [reflexivity|].
  destruct (p c); simpl; [exact IH | discriminate].
Qed.

(** Trimming has one answer: [strip]'s. *)
Lemma is_trim_of_unique (raw t : str) : is_trim_of raw t -> t = strip raw.
Proof.
  intros [[pre [post [E [F G]]]] [Hh Hl]].
  unfold strip, rstrip, lstrip. subst raw.
  rewrite dropwhile_app_all by exact F.
  destruct t as [|c u].
  - simpl. rewrite (dropwhile_all _ _ G). reflexivity.
  - simpl. rewrite (Hh c u eq_refl).
    change (c :: u ++ post) with ((c :: u) ++ post).
    rewrite rev_app_distr.
    rewrite dropwhile_app_all by (rewrite forallb_rev; exact G).
    destruct (rev (c :: u)) as [|d v] eqn:R.
    + apply (f_equal (@rev _)) in R. rewrite rev_involutive in R. discriminate R.
    + apply (f_equal (@rev _)) in R. rewrite rev_involutive in R. simpl in R.
      simpl. rewrite (Hl d (rev v) R). simpl. exact R.
Qed.

(** ** UTF-8 *)

Lemma below_cases (n : nat) (P : Z -> Prop) :
  Forall P (map Z.of_nat (seq 0 n)) ->
  forall x, 0 <= x < Z.of_nat n -> P x.
Proof.
  intros F x Hx. rewrite Forall_forall in F. apply F.
  apply in_map_iff. exists (Z.to_nat x). split; [lia|].
  apply in_seq. lia.
Qed.

Ltac by_cases n :=
  intros x Hx; pattern x; apply (below_cases n); [|exact Hx];
  cbv [seq map]; repeat (apply Forall_cons; [reflexivity|]); apply Forall_nil.

Lemma lor_128 : forall x, 0 <= x < 64 -> Z.lor 128 x = 128 + x.
Proof. by_cases 64%nat. Qed.

Lemma lor_192 : forall x, 0 <= x < 32 -> Z.lor 192 x = 192 + x.
Proof. by_cases 32%nat. Qed.

Lemma lor_224 : forall x, 0 <= x < 16 -> Z.lor 224 x = 224 + x.
Proof. by_cases 16%nat. Qed.

Lemma lor_240 : forall x, 0 <= x < 8 -> Z.lor 240 x = 240 + x.
Proof. by_cases 8%nat. Qed.

Lemma land_63 (c : Z) : Z.land c 63 = c mod 64.
Proof. change 63 with (Z.ones 6). rewrite Z.land_ones by lia. reflexivity. Qed.

Lemma shiftr_6 (c : Z) : Z.shiftr c 6 = c / 64.
Proof. rewrite Z.shiftr_div_pow2 by lia. reflexivity. Qed.

Lemma shiftr_12 (c : Z) : Z.shiftr c 12 = c / 4096.
Proof. rewrite Z.shiftr_div_pow2 by lia. reflexivity. Qed.

Lemma shiftr_18 (c : Z) : Z.shiftr c 18 = c / 262144.
Proof. rewrite Z.shiftr_div_pow2 by lia. reflexivity. Qed.

(** The bytes of one code point, in arithmetic. *)
Lemma utf8_char_bytes (c : codepoint) (b : bytes) :
  utf8_char c = Some b ->
  (0 <= c < 128 /\ b = [c])
  \/ (128 <= c < 2048 /\ b = [192 + c / 64; 128 + c mod 64])
  \/ (2048 <= c < 65536
      /\ b = [224 + c / 4096; 128 + (c / 64) mod 64; 128 + c mod 64])
  \/ (65536 <= c < 1114112
      /\ b = [240 + c / 262144; 128 + (c / 4096) mod 64;
              128 + (c / 64) mod 64; 128 + c mod 64]).
Proof.
  unfold utf8_char.
  destruct (Z.ltb_spec c 0); [discriminate|].
  destruct (Z.ltb_spec c 128); [intros [= <-]; left; split; [lia|reflexivity]|].
  destruct (Z.ltb_spec c 2048).
  { intros E. right; left. split; [lia|].
    assert (b = [Z.lor 192 (Z.shiftr c 6); Z.lor 128 (Z.land c 63)]) as ->
        by congruence.
    clear E. rewrite land_63, shiftr_6, lor_192, lor_128; [reflexivity| |].
    - apply Z.mod_pos_bound; lia.
    - split; [apply Z.div_pos; lia | apply Z.div_lt_upper_bound; lia]. }
  destruct ((55296 <=? c) && (c <? 57344)); [discriminate|].
  destruct (Z.ltb_spec c 65536).
  { intros E. right; right; left. split; [lia|].
    assert (b = [Z.lor 224 (Z.shiftr c 12);
                 Z.lor 128 (Z.land (Z.shiftr c 6) 63);
                 Z.lor 128 (Z.land c 63)]) as -> by congruence.
    clear E.
    rewrite !land_63, shiftr_6, shiftr_12, lor_224, !lor_128; [reflexivity| | |].
    - apply Z.mod_pos_bound; lia.
    - apply Z.mod_pos_bound; lia.
    - split; [apply Z.div_pos; lia | apply Z.div_lt_upper_bound; lia]. }
  destruct (Z.ltb_spec c 1114112); [|discriminate].
  intros E. right; right; right. split; [lia|].
  assert (b = [Z.lor 240 (Z.shiftr c 18);
               Z.lor 128 (Z.land (Z.shiftr c 12) 63);
               Z.lor 128 (Z.land (Z.shiftr c 6) 63);
               Z.lor 128 (Z.land c 63)]) as -> by congruence.
  clear E.
  rewrite !land_63, shiftr_6, shiftr_12, shiftr_18, lor_240, !lor_128;
    [reflexivity| | | |].
  - apply Z.mod_pos_bound; lia.
  - apply Z.mod_pos_bound; lia.
  - apply Z.mod_pos_bound; lia.
  - split; [apply Z.div_pos; lia | apply Z.div_lt_upper_bound; lia].
Qed.

(** Every byte of the encoding is a byte. *)
Lemma utf8_char_range (c : codepoint) (b : bytes) :
  utf8_char c = Some b -> Forall (fun x => 0 <= x < 256) b.
Proof.
  intros H. apply utf8_char_bytes in H.
  destruct H as [[R ->]|[[R ->]|[[R ->]|[R ->]]]];
    repeat (apply Forall_cons; [|]); try apply Forall_nil;
    try lia;
    try (pose proof (Z.mod_pos_bound c 64 ltac:(lia));
         pose proof (Z.mod_pos_bound (c / 64) 64 ltac:(lia));
         pose proof (Z.mod_pos_bound (c / 4096) 64 ltac:(lia)); lia);
    (split; [assert (0 <= c / 64) by (apply Z.div_pos; lia);
             assert (0 <= c / 4096) by (apply Z.div_pos; lia);
             assert (0 <= c / 262144) by (apply Z.div_pos; lia); lia|]);
    [assert (c / 64 < 32) by (apply Z.div_lt_upper_bound; lia)
    |assert (c / 4096 < 16) by (apply Z.div_lt_upper_bound; lia)
    |assert (c / 262144 < 8) by (apply Z.div_lt_upper_bound; lia)]; lia.
Qed.

Lemma utf8_decode_char (c : codepoint) (b rest : bytes) :
  utf8_char c = Some b ->
  utf8_decode (b ++ rest) = option_map (cons c) (utf8_decode rest).
Proof.
  intros H. apply utf8_char_bytes in H.
  destruct H as [[R ->]|[[R ->]|[[R ->]|[R ->]]]]; cbn [app utf8_decode].
  - destruct (Z.ltb_spec c 128); [reflexivity | lia].
  - assert (0 <= c / 64 < 32)
      by (split; [apply Z.div_pos; lia | apply Z.div_lt_upper_bound; lia]).
    destruct (Z.ltb_spec (192 + c / 64) 128); [lia|].
    destruct (Z.ltb_spec (192 + c / 64) 224); [|lia].
    replace ((192 + c / 64 - 192) * 64 + (128 + c mod 64 - 128)) with c;
      [reflexivity|].
    rewrite (Z.div_mod c 64) at 1 by lia. lia.
  - assert (0 <= c / 4096 < 16)
      by (split; [apply Z.div_pos; lia | apply Z.div_lt_upper_bound; lia]).
    destruct (Z.ltb_spec (224 + c / 4096) 128); [lia|].
    destruct (Z.ltb_spec (224 + c / 4096) 224); [lia|].
    destruct (Z.ltb_spec (224 + c / 4096) 240); [|lia].
    replace ((224 + c / 4096 - 224) * 4096 + (128 + (c / 64) mod 64 - 128) * 64
             + (128 + c mod 64 - 128)) with c; [reflexivity|].
    rewrite (Z.div_mod c 64) at 1 by lia.
    rewrite (Z.div_mod (c / 64) 64) at 1 by lia.
    rewrite Z.div_div by lia. change (64 * 64) with 4096. lia.
  - assert (0 <= c / 262144 < 8)
      by (split; [apply Z.div_pos; lia | apply Z.div_lt_upper_bound; lia]).
    destruct (Z.ltb_spec (240 + c / 262144) 128); [lia|].
    destruct (Z.ltb_spec (240 + c / 262144) 224); [lia|].
    destruct (Z.ltb_spec (240 + c / 262144) 240); [lia|].
    replace ((240 + c / 262144 - 240) * 262144
             + (128 + (c / 4096) mod 64 - 128) * 4096
             + (128 + (c / 64) mod 64 - 128) * 64
             + (128 + c mod 64 - 128)) with c; [reflexivity|].
    rewrite (Z.div_mod c 64) at 1 by lia.
    rewrite (Z.div_mod (c / 64) 64) at 1 by lia.
    rewrite (Z.div_div c 64 64) by lia. change (64 * 64) with 4096.
    rewrite (Z.div_mod (c / 4096) 64) at 1 by lia.
    rewrite (Z.div_div c 4096 64) by lia. change (4096 * 64) with 262144.
    lia.
Qed.

(** The encoding loses nothing: decoding the bytes gives the text back. *)
Lemma utf8_decode_utf8 (s : str) (data : bytes) :
  utf8 s = Some data -> utf8_decode data = Some s.
Proof.
  revert data; induction s as [|c s IH]; intros data; simpl.
  - intros [= <-]. reflexivity.
  - destruct (utf8_char c) as [b|] eqn:Ec; [|discriminate].
    destruct (utf8 s) as [bs|]; [|discriminate].
    intros [= <-]. rewrite (utf8_decode_char c b bs Ec), (IH bs eq_refl).
    reflexivity.
Qed.

(** Two texts with the same bytes are the same text. *)
Lemma utf8_inj (s t : str) (data : bytes) :
  utf8 s = Some data -> utf8 t = Some data -> s = t.
Proof.
  intros Hs Ht. apply utf8_decode_utf8 in Hs, Ht. congruence.
Qed.

(** ** Widget keys *)

Lemma lit_inj (a b : string) : lit a = lit b -> a = b.
Proof.
  unfold lit. intros H.
  rewrite <- (string_of_list_ascii_of_string a),
          <- (string_of_list_ascii_of_string b).
  f_equal. revert H.
  generalize (list_ascii_of_string a) (list_ascii_of_string b).
  induction l as [|x l IH]; intros [|y l']; simpl; try discriminate; auto.
  intros [= H1 H2]. f_equal; [|apply IH; exact H2].
  apply N2Z.inj in H1.
  rewrite <- (ascii_N_embedding x), <- (ascii_N_embedding y), H1.
  reflexivity.
Qed.

(** [str(n)] tells integers apart. *)
Lemma str_of_int_inj (a b : Z) : str_of_int a = str_of_int b -> a = b.
Proof.
  unfold str_of_int. intros H. apply lit_inj in H.
  apply (f_equal NilEmpty.int_of_string) in H.
  rewrite !NilEmpty.isi in H. injection H as H.
  rewrite <- (DecimalZ.of_to a), <- (DecimalZ.of_to b), H. reflexivity.
Qed.

(** A new version gives the upload widget a new key. *)
Lemma uploader_key_inj (a b : Z) : uploader_key a = uploader_key b -> a = b.
Proof.
  unfold uploader_key. intros H. apply app_inv_head in H.
  apply str_of_int_inj; exact H.
Qed.

Lemma uploader_key_changes (version : Z) :
  uploader_key (version + 1) <> uploader_key version.
Proof. intros H. apply uploader_key_inj in H. lia. Qed.

Lemma uploader_key_not_transcript (version : Z) :
  str_eqb (lit "transcript") (uploader_key version) = false.
Proof. reflexivity. Qed.

Lemma uploader_key_not_version (version : Z) :
  str_eqb (lit "uploader_version") (uploader_key version) = false.
Proof.
  destruct (str_eqb (lit "uploader_version") (uploader_key version)) eqn:E;
    [|reflexivity].
  apply str_eqb_eq in E. unfold uploader_key in E.
  change (lit "uploader_version") with (lit "uploader_" ++ lit "version") in E.
  apply app_inv_head in E. unfold str_of_int in E. apply lit_inj in E.
  apply (f_equal NilEmpty.int_of_string) in E.
  rewrite NilEmpty.isi in E. discriminate E.
Qed.

(** ** os.path.splitext *)

(** [rfind] finds the last occurrence. *)
Lemma rfind_from_spec (c : codepoint) (p : str) :
  forall i found,
    (rfind_from i c p found = found /\ ~ In c p)
    \/ (exists a b,
           p = a ++ c :: b /\ ~ In c b
           /\ rfind_from i c p found = i + Z.of_nat (List.length a)).
Proof.
  induction p as [|x p IH]; intros i found; simpl.
  - left. split; [reflexivity | tauto].
  - destruct (IH (i + 1) (if x =? c then i else found))
      as [[E N]|[a [b [-> [N E]]]]].
    + destruct (Z.eqb_spec x c) as [->|Hx].
      * right. exists [], p. simpl. repeat split; auto. rewrite E. lia.
      * left. rewrite E. split; [reflexivity|]. intros [H|H]; auto.
    + right. exists (x :: a), b. simpl. repeat split; auto.
      rewrite E. lia.
Qed.

Lemma rfind_spec (c : codepoint) (p : str) :
  (rfind c p = -1 /\ ~ In c p)
  \/ (exists a b,
         p = a ++ c :: b /\ ~ In c b /\ rfind c p = Z.of_nat (List.length a)).
Proof.
  unfold rfind. destruct (rfind_from_spec c p 0 (-1)) as [H|[a [b [E [N H]]]]].
  - left; exact H.
  - right. exists a, b. repeat split; auto.
Qed.

(** Nothing after the last dot is a separator when the last separator
    comes before that dot. *)
Lemma no_sep_after_dot (sep : codepoint) (a b : str) :
  rfind sep (a ++ extsep :: b) < Z.of_nat (List.length a) -> ~ In sep b.
Proof.
  intros H Hin.
  destruct (rfind_spec sep (a ++ extsep :: b)) as [[_ N]|[a' [b' [E [N K]]]]].
  - apply N. apply in_or_app. right. right. exact Hin.
  - rewrite K in H. apply Nat2Z.inj_lt in H.
    apply app_eq_app in E. destruct E as [l [[E1 E2]|[E1 E2]]].
    + subst a. rewrite length_app in H.
      destruct l as [|y l]; [simpl in H; lia|].
      simpl in E2. injection E2 as _ ->.
      apply N. apply in_or_app. right. right. exact Hin.
    + subst a'. rewrite length_app in H. lia.
Qed.

(** The extension [splitext] takes off is empty, or a dot followed by
    characters that are neither dots nor separators. *)
Lemma _splitext_ext (p : str) (sep : codepoint) (altsep : option codepoint) :
  let (base, ext) := OsPath._splitext p sep altsep in
  base ++ ext = p
  /\ (ext = []
      \/ exists b,
          ext = extsep :: b /\ ~ In extsep b /\ ~ In sep b
          /\ forall a, altsep = Some a -> ~ In a b).
Proof.
  unfold OsPath._splitext.
  set (sepIndex := match altsep with
                   | Some a => Z.max (rfind sep p) (rfind a p)
                   | None => rfind sep p
                   end).
  destruct ((sepIndex <? rfind extsep p)
            && name_has_non_dot
                 (Z.to_nat (rfind extsep p - (sepIndex + 1))) p (sepIndex + 1))
    eqn:Cnd.
  - split; [apply firstn_skipn|]. right.
    apply andb_true_iff in Cnd. destruct Cnd as [Hlt _].
    apply Z.ltb_lt in Hlt.
    assert (-1 <= rfind sep p) as Hsep.
    { destruct (rfind_spec sep p) as [[-> _]|[? [? [_ [_ ->]]]]]; lia. }
    assert (rfind sep p <= sepIndex) as Hle.
    { subst sepIndex. destruct altsep; lia. }
    destruct (rfind_spec extsep p) as [[E _]|[a [b [E [N K]]]]]; [lia|].
    exists b. split; [|split; [exact N|split]].
    + rewrite K, Nat2Z.id, E, skipn_app, Nat.sub_diag, skipn_all.
      reflexivity.
    + apply no_sep_after_dot with (a := a). rewrite <- E. lia.
    + intros alt Ealt. apply no_sep_after_dot with (a := a). rewrite <- E.
      subst sepIndex. rewrite Ealt in Hlt. lia.
  - split; [apply app_nil_r | left; reflexivity].
Qed.

(** ** The script monad *)

Section Properties.

Context {C : Collaborators}.

Lemma world_only_ret {A} (a : A) : world_only (ret a).
Proof.
  intros r. unfold world_after, calls_of, result_of, on_world, ret; simpl.
  rewrite app_nil_r. destruct r; reflexivity.
Qed.

Lemma world_only_collaborate {A} (c : Call) (op : World -> World * result A) :
  world_only (collaborate c op).
Proof.
  intros r. unfold world_after, calls_of, result_of, on_world, collaborate; simpl.
  destruct (op (world r)) as [w res]; reflexivity.
Qed.

Lemma world_only_read {A} (f : World -> A) :
  world_only (fun r => (r, Ok (f (world r)))).
Proof.
  intros r. unfold world_after, calls_of, result_of, on_world; simpl.
  rewrite app_nil_r. destruct r; reflexivity.
Qed.

Lemma world_only_bind {A B} (m : M A) (k : A -> M B) :
  world_only m -> (forall a, world_only (k a)) -> world_only (bind m k).
Proof.
  intros Hm Hk r.
  unfold world_after, calls_of, result_of, on_world, bind.
  rewrite (Hm r), (Hm (start_run new_session (world r))). simpl.
  destruct (result_of m (world r)) as [a|e]; simpl.
  - rewrite (Hk a (mkRun (session r) (widget_keys r) (ui r) _ _)).
    rewrite (Hk a (mkRun new_session [] [] _ _)). simpl.
    rewrite app_assoc. reflexivity.
  - reflexivity.
Qed.

Lemma world_only_transcribe_media (path : str) : world_only (transcribe_media path).
Proof.
  unfold transcribe_media, load_model.
  apply world_only_bind; [apply world_only_collaborate|]. intros model.
  apply world_only_bind; [apply world_only_collaborate|]. intros segments.
  apply world_only_ret.
Qed.

Lemma world_only_download_link_media (url : str) (out_dir : Path) :
  world_only (download_link_media url out_dir).
Proof.
  unfold download_link_media.
  apply world_only_bind; [apply world_only_collaborate|]. intros info.
  apply world_only_bind; [apply world_only_collaborate|]. intros downloaded.
  apply world_only_bind; [apply (world_only_read (path_exists _))|]. intros e.
  apply world_only_ret.
Qed.

Lemma world_only_fetch_text (url : str) (tmp_dir : Path) :
  world_only (fetch_text url tmp_dir).
Proof.
  unfold fetch_text.
  apply world_only_bind; [apply world_only_download_link_media|]. intros p.
  apply world_only_transcribe_media.
Qed.

(** ** Transcribe *)

Lemma map_filter_comm {A B} (f : A -> B) (p : B -> bool) (l : list A) :
  map f (filter (fun x => p (f x)) l) = filter p (map f l).
Proof.
  induction l as [|a l IH]; simpl; [reflexivity|].
  destruct (p (f a)); simpl; rewrite IH; reflexivity.
Qed.

Lemma join_explicit (sep first : str) (others : list str) :
  join sep (first :: others)
  = first ++ flat_map (fun part => sep ++ part) others.
Proof.
  revert first; induction others as [|o os IH]; intros first.
  - simpl. rewrite app_nil_r. reflexivity.
  - change (join sep (first :: o :: os))
      with (first ++ sep ++ join sep (o :: os)).
    rewrite IH. cbn [flat_map]. rewrite <- !app_assoc. reflexivity.
Qed.

Lemma trimmed_nonempty_texts_explicit (segments : list Segment) :
  trimmed_nonempty_texts segments
  = flat_map (fun segment =>
                match strip (text segment) with
                | [] => []
                | c :: rest => [c :: rest]
                end) segments.
Proof.
  unfold trimmed_nonempty_texts.
  induction segments as [|s segs IH]; [reflexivity|].
  cbn [map filter flat_map]. rewrite <- IH.
  destruct (strip (text s)); reflexivity.
Qed.

(** C4. For every sequence of segments the transcription collaborator
    returns for a media path, [transcribe_media] returns the segments'
    texts with the whitespace at their ends trimmed, the segments whose
    trimmed text is empty dropped, joined in order by newlines.  Written
    out: the kept texts are the non-empty [strip]s of the segments' texts
    in the order of the segments; with none kept the result is the empty
    string, otherwise it is the first kept text followed by each further
    one after a line feed.  Trimming is pinned by [is_trim_of].  The
    session state and the page are left as they were. *)
Theorem transcribe_media_joins_trimmed_segments
  (r : Run) (path : str) (w1 w2 : World) (model : Model)
  (segments : list Segment) :
  let kept :=
    flat_map (fun segment =>
                match strip (text segment) with
                | [] => []
                | c :: rest => [c :: rest]
                end) segments in
  whisper_model (lit "small") (lit "int8") (world r) = (w1, Ok model) ->
  model_transcribe model path true 5 w1 = (w2, Ok segments) ->
  exists t,
    snd (transcribe_media path r) = Ok t
    /\ t = join newline (trimmed_nonempty_texts segments)
    /\ trimmed_nonempty_texts segments = kept
    /\ (kept = [] -> t = [])
    /\ (forall first others,
          kept = first :: others ->
          t = first ++ flat_map (fun line => [10] ++ line) others)
    /\ (forall t', In t' kept ->
          t' <> [] /\ exists s, In s segments /\ is_trim_of (text s) t')
    /\ (forall s t', In s segments -> is_trim_of (text s) t' -> t' <> [] ->
          In t' kept)
    /\ session (fst (transcribe_media path r)) = session r
    /\ ui (fst (transcribe_media path r)) = ui r.
Proof.
  intros kept Hm Ht.
  assert (transcribe_media path r
          = (mkRun (session r) (widget_keys r) (ui r) w2
                   (calls r ++ [CallLoadModel; CallTranscribe path]),
             Ok (join newline (trimmed_nonempty_texts segments)))) as E.
  { unfold transcribe_media, load_model, bind, collaborate, ret.
    rewrite Hm. simpl. rewrite Ht. simpl.
    unfold trimmed_nonempty_texts.
    rewrite <- (map_filter_comm (fun s => strip (text s)) truthy).
    rewrite <- app_assoc. reflexivity. }
  assert (trimmed_nonempty_texts segments = kept) as K
      by apply trimmed_nonempty_texts_explicit.
  exists (join newline (trimmed_nonempty_texts segments)).
  rewrite E. cbn [fst snd session ui].
  split; [reflexivity|]. split; [reflexivity|]. split; [exact K|].
  rewrite K.
  split; [intros ->; reflexivity|].
  split; [intros first others ->; apply join_explicit|].
  rewrite <- K. split; [|split; [|split; reflexivity]].
  - intros t Hin. unfold trimmed_nonempty_texts in Hin.
    apply filter_In in Hin. destruct Hin as [Hin Ht'].
    split; [apply truthy_true; exact Ht'|].
    apply in_map_iff in Hin. destruct Hin as [s [<- Hs]].
    exists s. split; [exact Hs | apply strip_is_trim].
  - intros s t Hs Htrim Hne. unfold trimmed_nonempty_texts.
    apply filter_In. split.
    + apply in_map_iff. exists s. split; [|exact Hs].
      symmetry. apply is_trim_of_unique; exact Htrim.
    + apply truthy_true; exact Hne.
Qed.

(** ** Acquire *)

Lemma splitext_concat (p : str) : fst (splitext p) ++ snd (splitext p) = p.
Proof.
  unfold splitext, OsPath._splitext.
  match goal with |- context [if ?b then _ else _] => destruct b end; simpl.
  - apply firstn_skipn.
  - apply app_nil_r.
Qed.

(** C3. For every URL the retrieval collaborator accepts,
    [download_link_media] returns the path of the converted file, which is
    the downloaded file's name with its extension replaced by [.mp3], when
    that file exists, and the path of the downloaded file otherwise.  The
    extension that is replaced is what [os.path.splitext] takes off: it
    is empty, or a dot followed by neither a dot nor a separator. *)
Theorem download_link_media_converted_or_downloaded
  (r : Run) (url : str) (out_dir : Path) (w1 w2 : World) (info : Info)
  (downloaded : str) :
  let options :=
    ydl_options (path_str (path_div out_dir (lit "%(title).120s.%(ext)s"))) in
  let base := fst (splitext downloaded) in
  let converted := path_of (base ++ lit ".mp3") in
  extract_info options url (world r) = (w1, Ok info) ->
  prepare_filename options info w1 = (w2, Ok downloaded) ->
  download_link_media url out_dir r
  = (mkRun (session r) (widget_keys r) (ui r) w2
           (calls r ++ [CallExtractInfo url; CallPrepareFilename]),
     Ok (if path_exists converted w2 then converted else path_of downloaded))
  /\ base ++ snd (splitext downloaded) = downloaded
  /\ (snd (splitext downloaded) = []
      \/ exists b,
          snd (splitext downloaded) = extsep :: b
          /\ ~ In extsep b /\ ~ In os_sep b).
Proof.
  intros options base converted He Hp. split; [|split].
  - unfold download_link_media, bind, collaborate, ret.
    fold options. rewrite He. simpl. rewrite Hp. simpl.
    fold base. fold converted. rewrite <- app_assoc. simpl.
    destruct (path_exists converted w2); reflexivity.
  - apply splitext_concat.
  - pose proof (_splitext_ext downloaded os_sep os_altsep) as H.
    unfold splitext. destruct (_splitext downloaded os_sep os_altsep) as [b0 e0].
    destruct H as [_ [H|[b [H1 [H2 [H3 _]]]]]]; [left; exact H|].
    right. exists b. auto.
Qed.

(** ** Transcribe Links *)

Lemma bind_assoc {A B D} (m : M A) (f : A -> M B) (g : B -> M D) (r : Run) :
  bind (bind m f) g r = bind m (fun a => bind (f a) g) r.
Proof. unfold bind. destruct (m r) as [r' [a|e]]; reflexivity. Qed.

Lemma link_outcomes_links (tmp_dir : Path) (links : list str) (w : World) :
  map fst (link_outcomes tmp_dir links w) = links.
Proof.
  revert w; induction links as [|url rest IH]; intros w; simpl;
    [reflexivity | rewrite IH; reflexivity].
Qed.

(** The loop over the links: it returns the sections of the links that
    succeeded, appended to [collected], and leaves one entry per link in
    the status log; nothing else of the session state changes. *)
Lemma links_loop_run (total : Z) (tmp_dir : Path) (links : list str) :
  forall (idx : Z) (collected : list str) (r : Run),
    let outcomes := link_outcomes tmp_dir links (world r) in
    Forall survivable outcomes ->
    exists r',
      links_loop total tmp_dir idx links collected r
      = (r', Ok (collected ++ sections_of outcomes))
      /\ status_log (session r')
         = status_log (session r) ++ map entry_of outcomes
      /\ transcript (session r') = transcript (session r)
      /\ links_input (session r') = links_input (session r)
      /\ uploader_version (session r') = uploader_version (session r)
      /\ widget_keys r' = widget_keys r.
Proof.
  induction links as [|url rest IH]; intros idx collected r outcomes Hs.
  - exists r. subst outcomes. simpl. unfold ret.
    rewrite !app_nil_r. repeat split; reflexivity.
  - subst outcomes. simpl in Hs. inversion Hs as [|o os Ho Hos]; subst.
    simpl link_outcomes. cbn [links_loop].
    unfold bind at 1. unfold emit at 1. cbn beta iota.
    unfold bind at 1. unfold try_except at 1.
    match goal with
    | |- context [bind (download_link_media url tmp_dir) ?k ?r0] =>
        change (bind (download_link_media url tmp_dir) k r0)
          with (bind (download_link_media url tmp_dir)
                  (fun media_path =>
                     bind (transcribe_media (path_str media_path))
                       (fun text =>
                          bind (status_log_append (success_entry url))
                            (fun _ => ret (collected ++ [section_of url text]))))
                  r0);
        rewrite <- (bind_assoc (download_link_media url tmp_dir)
                      (fun media_path => transcribe_media (path_str media_path))
                      (fun text =>
                         bind (status_log_append (success_entry url))
                           (fun _ => ret (collected ++ [section_of url text])))
                      r0)
    end.
    fold (fetch_text url tmp_dir).
    unfold bind at 1. rewrite (world_only_fetch_text url tmp_dir). cbn [world session widget_keys ui calls].
    destruct (result_of (fetch_text url tmp_dir) (world r)) as [text|exc] eqn:R.
    + cbn beta iota. unfold bind at 1, status_log_append at 1, ret at 1.
      cbn beta iota.
      match goal with
      | |- context [links_loop total tmp_dir (idx + 1) rest ?c ?r1] =>
          destruct (IH (idx + 1) c r1) as [r' [E [L [T [I [U K]]]]]];
            [exact Hos|]
      end.
      exists r'. cbn [world] in E. rewrite E.
      cbn [session with_session status_log transcript links_input
             uploader_version widget_keys] in *.
      split; [|split; [|repeat split; assumption]].
      * cbn [sections_of]. rewrite <- app_assoc. reflexivity.
      * rewrite L. cbn [map entry_of]. rewrite <- app_assoc. reflexivity.
    + cbn beta iota. simpl in Ho. rewrite Ho.
      unfold bind at 1, status_log_append at 1, ret at 1.
      cbn beta iota.
      match goal with
      | |- context [links_loop total tmp_dir (idx + 1) rest ?c ?r1] =>
          destruct (IH (idx + 1) c r1) as [r' [E [L [T [I [U K]]]]]];
            [exact Hos|]
      end.
      exists r'. cbn [world] in E. rewrite E.
      cbn [session with_session status_log transcript links_input
             uploader_version widget_keys] in *.
      split; [|split; [|repeat split; assumption]].
      * cbn [sections_of]. reflexivity.
      * rewrite L. cbn [map entry_of]. rewrite <- app_assoc. reflexivity.
Qed.

Lemma instantiated_keys (key : str) (r r' : Run) :
  widget_keys r' = widget_keys r -> instantiated key r' = instantiated key r.
Proof. unfold instantiated. intros ->. reflexivity. Qed.

(** The Transcribe Links handler on a text that holds a link. *)
Lemma transcribe_links_handler_run (r : Run) (links : list str) :
  let tmp := snd (tmp_create (world r)) in
  let outcomes :=
    link_outcomes (path_of tmp) links (fst (tmp_create (world r))) in
  split_links (links_input (session r)) = links ->
  links <> [] ->
  instantiated (lit "transcript") r = false ->
  Forall survivable outcomes ->
  exists r',
    transcribe_links_handler r = (r', Ok tt)
    /\ status_log (session r')
       = status_log (session r) ++ map entry_of outcomes
    /\ transcript (session r')
       = transcript_after (transcript (session r)) outcomes
    /\ links_input (session r') = links_input (session r)
    /\ uploader_version (session r') = uploader_version (session r)
    /\ widget_keys r' = widget_keys r.
Proof.
  intros tmp outcomes El Hne Hk Hs.
  unfold transcribe_links_handler, bind at 1, session_get at 1.
  rewrite El. destruct links as [|l0 ls]; [congruence|]. clear Hne.
  unfold with_temporary_directory.
  subst tmp outcomes. destruct (tmp_create (world r)) as [w1 tmp] eqn:Etmp.
  cbn [fst snd] in *.
  unfold bind at 1.
  destruct (links_loop_run (Z.of_nat (List.length (l0 :: ls))) (path_of tmp)
              (l0 :: ls) 1 []
              (mkRun (session r) (widget_keys r) (ui r) w1 (calls r)))
    as [r1 [E [L [T [I [U K]]]]]]; [exact Hs|].
  cbn [world session widget_keys] in *.
  rewrite E. cbn [app].
  unfold transcript_after.
  destruct (sections_of (link_outcomes (path_of tmp) (l0 :: ls) w1))
    as [|s0 ss] eqn:Es.
  - unfold ret. eexists. split; [reflexivity|].
    cbn [session widget_keys]. repeat split; assumption.
  - unfold session_set.
    rewrite (instantiated_keys _ r r1 K), Hk.
    eexists. split; [reflexivity|].
    cbn [session widget_keys with_session set_transcript status_log transcript
           links_input uploader_version].
    repeat split; assumption.
Qed.

Lemma sections_of_nil_iff (outcomes : list (str * result str)) :
  sections_of outcomes = [] <-> existsb succeeded outcomes = false.
Proof.
  induction outcomes as [|[url [text|exc]] rest IH]; simpl.
  - tauto.
  - split; discriminate.
  - exact IH.
Qed.

Lemma entries_differ (url url' : str) (exc : exn) :
  success_entry url <> failure_entry url' exc.
Proof. unfold success_entry, failure_entry. simpl. discriminate. Qed.

Lemma sections_of_explicit (outcomes : list (str * result str)) :
  sections_of outcomes
  = flat_map (fun outcome =>
                match snd outcome with
                | Ok text =>
                    [lit "### Source: " ++ fst outcome ++ [10] ++ text]
                | Raise _ => []
                end) outcomes.
Proof.
  induction outcomes as [|[url [text|exc]] rest IH]; [reflexivity| |].
  - cbn [sections_of flat_map fst snd app]. rewrite IH. reflexivity.
  - cbn [sections_of flat_map fst snd app]. exact IH.
Qed.

Lemma entries_explicit (outcomes : list (str * result str)) :
  map entry_of outcomes
  = map (fun outcome =>
           match snd outcome with
           | Ok _ => [9989] ++ lit " Transcribed link: " ++ fst outcome
           | Raise exc =>
               [10060] ++ lit " Failed link: " ++ fst outcome
               ++ lit " (" ++ exn_text exc ++ lit ")"
           end) outcomes.
Proof.
  apply map_ext. intros [url [text|exc]]; reflexivity.
Qed.

(** C1. A batch of pasted links of which some fail (with an exception the
    loop catches) and at least one succeeds.  The links are non-blank and
    each has one outcome, in order.  The new transcript is exactly the
    sections of the links that succeeded, in the order of the links: a
    section is the line [### Source: ] followed by the link's URL, a line
    feed and the link's text; the transcript is the first section
    followed by each further section after two line feeds (a blank
    line).  The status log gains exactly one entry per link, in order:
    for a success the check mark, [ Transcribed link: ] and the URL, for
    a failure the cross, [ Failed link: ], the URL and the exception's
    text in parentheses; no success entry equals a failure entry. *)
Theorem transcribe_links_transcript_and_log (r : Run) (links : list str) :
  let tmp_dir := path_of (snd (tmp_create (world r))) in
  let outcomes := link_outcomes tmp_dir links (fst (tmp_create (world r))) in
  let sections :=
    flat_map (fun outcome =>
                match snd outcome with
                | Ok text =>
                    [lit "### Source: " ++ fst outcome ++ [10] ++ text]
                | Raise _ => []
                end) outcomes in
  let entries :=
    map (fun outcome =>
           match snd outcome with
           | Ok _ => [9989] ++ lit " Transcribed link: " ++ fst outcome
           | Raise exc =>
               [10060] ++ lit " Failed link: " ++ fst outcome
               ++ lit " (" ++ exn_text exc ++ lit ")"
           end) outcomes in
  split_links (links_input (session r)) = links ->
  links <> [] ->
  instantiated (lit "transcript") r = false ->
  Forall survivable outcomes ->
  existsb succeeded outcomes = true ->
  exists r',
    transcribe_links_handler r = (r', Ok tt)
    /\ Forall (fun link => link <> []) links
    /\ map fst outcomes = links
    /\ transcript (session r')
       = join (newline ++ newline) (sections_of outcomes)
    /\ sections_of outcomes = sections
    /\ (exists first others,
           sections = first :: others
           /\ transcript (session r')
              = first ++ flat_map (fun section => [10; 10] ++ section) others)
    /\ status_log (session r')
       = status_log (session r) ++ map entry_of outcomes
    /\ status_log (session r') = status_log (session r) ++ entries
    /\ List.length entries = List.length links
    /\ (forall url url' exc, success_entry url <> failure_entry url' exc).
Proof.
  intros tmp_dir outcomes sections entries El Hne Hk Hs Hsome.
  destruct (transcribe_links_handler_run r links El Hne Hk Hs)
    as [r' [E [L [T _]]]].
  fold tmp_dir in L, T. fold outcomes in L, T.
  assert (transcript (session r')
          = join (newline ++ newline) (sections_of outcomes)) as T'.
  { rewrite T. unfold transcript_after.
    destruct (sections_of outcomes) eqn:Es; [|reflexivity].
    apply sections_of_nil_iff in Es. congruence. }
  assert (sections_of outcomes = sections) as S
      by apply sections_of_explicit.
  assert (map entry_of outcomes = entries) as N by apply entries_explicit.
  exists r'. split; [exact E|].
  split.
  { apply Forall_forall. intros link Hin. subst links.
    eapply split_links_nonblank; exact Hin. }
  split; [apply link_outcomes_links|].
  split; [exact T'|]. split; [exact S|].
  split.
  { destruct (sections_of outcomes) as [|first others] eqn:Es.
    - apply sections_of_nil_iff in Es. congruence.
    - exists first, others. split; [symmetry; exact S|].
      rewrite T'. apply join_explicit. }
  split; [exact L|]. split; [rewrite <- N; exact L|].
  split.
  { rewrite <- N, length_map, <- (length_map fst outcomes). f_equal.
    apply link_outcomes_links. }
  apply entries_differ.
Qed.

(** The upload handler when the file is written and transcribed. *)
Lemma transcribe_upload_handler_run (r : Run) (file : UploadedFile)
  (w2 : World) (text : str) :
  let tmp := snd (tmp_create (world r)) in
  let input_path := path_div (path_of tmp) (name file) in
  instantiated (lit "transcript") r = false ->
  write_bytes input_path (content file) (fst (tmp_create (world r)))
  = (w2, Ok tt) ->
  result_of (transcribe_media (path_str input_path)) w2 = Ok text ->
  exists r',
    transcribe_upload_handler (Some file) r = (r', Ok tt)
    /\ transcript (session r') = text
    /\ status_log (session r')
       = status_log (session r)
         ++ [[9989] ++ lit " Transcribed upload: " ++ name file].
Proof.
  intros tmp input_path Hk Hw Ht.
  unfold transcribe_upload_handler, with_temporary_directory.
  subst tmp input_path. destruct (tmp_create (world r)) as [w1 tmp] eqn:Etmp.
  cbn [fst snd] in *.
  unfold bind at 1, collaborate at 1. cbn [world]. rewrite Hw.
  unfold bind at 1, emit at 1. cbn beta iota.
  unfold try_except, bind at 1.
  rewrite (world_only_transcribe_media _ _). cbn [world]. rewrite Ht.
  unfold bind at 1, session_set at 1.
  unfold instantiated in *. cbn [widget_keys]. rewrite Hk.
  unfold status_log_append.
  eexists. split; [reflexivity|]. split; reflexivity.
Qed.

(** C2. The Transcribe Links action replaces the transcript only if a
    link succeeded: when every link fails the transcript is the previous
    one; when a link succeeded the transcript is the joined sections of
    this batch alone.  The upload action, when it transcribes, sets the
    transcript to the new text alone. *)
Theorem transcript_replaced_wholesale_or_kept :
  (forall (r : Run) (links : list str),
      let tmp_dir := path_of (snd (tmp_create (world r))) in
      let outcomes :=
        link_outcomes tmp_dir links (fst (tmp_create (world r))) in
      split_links (links_input (session r)) = links ->
      links <> [] ->
      instantiated (lit "transcript") r = false ->
      Forall survivable outcomes ->
      exists r',
        transcribe_links_handler r = (r', Ok tt)
        /\ (existsb succeeded outcomes = false ->
            transcript (session r') = transcript (session r))
        /\ (existsb succeeded outcomes = true ->
            transcript (session r')
            = join (newline ++ newline) (sections_of outcomes))
        /\ (transcript (session r') <> transcript (session r) ->
            existsb succeeded outcomes = true))
  /\
  (forall (r : Run) (file : UploadedFile) (w2 : World) (text : str),
      let tmp := snd (tmp_create (world r)) in
      let input_path := path_div (path_of tmp) (name file) in
      instantiated (lit "transcript") r = false ->
      write_bytes input_path (content file) (fst (tmp_create (world r)))
      = (w2, Ok tt) ->
      result_of (transcribe_media (path_str input_path)) w2 = Ok text ->
      exists r',
        transcribe_upload_handler (Some file) r = (r', Ok tt)
        /\ transcript (session r') = text).
Proof.
  split.
  - intros r links tmp_dir outcomes El Hne Hk Hs.
    destruct (transcribe_links_handler_run r links El Hne Hk Hs)
      as [r' [E [_ [T _]]]].
    fold tmp_dir in T. fold outcomes in T.
    exists r'. split; [exact E|].
    unfold transcript_after in T.
    destruct (sections_of outcomes) eqn:Es.
    + apply sections_of_nil_iff in Es.
      split; [intros _; exact T|]. split; [congruence|]. intros H. congruence.
    + assert (existsb succeeded outcomes = true) as Hsome.
      { destruct (existsb succeeded outcomes) eqn:X; [reflexivity|].
        apply sections_of_nil_iff in X. congruence. }
      split; [congruence|]. split; [intros _; exact T|]. intros _; exact Hsome.
  - intros r file w2 text tmp input_path Hk Hw Ht.
    destruct (transcribe_upload_handler_run r file w2 text Hk Hw Ht)
      as [r' [E [T _]]].
    exists r'. split; assumption.
Qed.

(** C7. When no line of the pasted text is non-blank, pressing Transcribe
    Links renders one warning and does nothing else: the session state
    (transcript, status log, link text, upload version) is the same, and
    so are the world and the record of collaborator calls. *)
Theorem transcribe_links_blank_only_warns (r : Run) :
  (forall line,
      In line (splitlines (links_input (session r))) -> strip line = []) ->
  transcribe_links_handler r
  = (mkRun (session r) (widget_keys r)
           (ui r ++ [Warning (lit "Please paste at least one link first.")])
           (world r) (calls r),
     Ok tt).
Proof.
  intros H. apply split_links_nil_iff_lines in H.
  unfold transcribe_links_handler, bind, session_get. rewrite H.
  reflexivity.
Qed.

(** The same for a text of whitespace only, the empty text included. *)
Lemma transcribe_links_whitespace_only_warns (r : Run) :
  forallb isspace (links_input (session r)) = true ->
  transcribe_links_handler r
  = (mkRun (session r) (widget_keys r)
           (ui r ++ [Warning (lit "Please paste at least one link first.")])
           (world r) (calls r),
     Ok tt).
Proof.
  intros H. apply split_links_nil_iff_blank in H.
  unfold transcribe_links_handler, bind, session_get. rewrite H.
  reflexivity.
Qed.

(** ** The run state at the handlers *)

(** In the script the handlers run after the two input widgets: the link
    text area is then instantiated, and no widget is keyed [transcript]
    or [uploader_version]. *)
Lemma handlers_context (r : Run) (version : Z) :
  widget_keys r = [links_key; uploader_key version] ->
  instantiated links_key r = true
  /\ instantiated (lit "transcript") r = false
  /\ instantiated (lit "uploader_version") r = false.
Proof.
  intros H. unfold instantiated. rewrite H. cbn [existsb].
  rewrite str_eqb_refl, uploader_key_not_transcript, uploader_key_not_version.
  repeat split; reflexivity.
Qed.

(** ** The clearing actions *)

(** Clear Transcript, in a run where no widget is keyed [transcript]:
    the transcript becomes empty and one entry is appended. *)
Lemma clear_transcript_handler_run (r : Run) :
  instantiated (lit "transcript") r = false ->
  clear_transcript_handler r
  = (mkRun (mkSession (uploader_version (session r)) (links_input (session r))
                      [] (status_log (session r)
                          ++ [[129532] ++ lit " Cleared transcript"]))
           (widget_keys r) (ui r) (world r) (calls r),
     Ok tt).
Proof.
  intros H. unfold clear_transcript_handler, bind, session_set. rewrite H.
  reflexivity.
Qed.

(** The clear-links handler where it may write both keys: the link text
    becomes empty, the version grows by one, one entry is appended and
    the script asks for a rerun. *)
Lemma clear_links_handler_unlocked (r : Run) :
  instantiated links_key r = false ->
  instantiated (lit "uploader_version") r = false ->
  clear_links_handler r
  = (mkRun (mkSession (uploader_version (session r) + 1) []
                      (transcript (session r))
                      (status_log (session r)
                       ++ [[129529] ++ lit " Cleared links and uploader content"]))
           (widget_keys r) (ui r) (world r) (calls r),
     Raise RerunException).
Proof.
  intros H1 H2. unfold clear_links_handler, bind. unfold session_set at 1.
  rewrite H1. unfold session_get at 1. unfold session_set at 1.
  unfold instantiated in *. cbn [widget_keys with_session]. rewrite H2.
  reflexivity.
Qed.

(** The clear-links handler once the link text area exists in the run:
    the first assignment is refused and nothing changes. *)
Lemma clear_links_handler_locked (r : Run) :
  instantiated links_key r = true ->
  clear_links_handler r = (r, Raise (StreamlitAPIException links_key)).
Proof.
  intros H. unfold clear_links_handler, bind. unfold session_set at 1.
  rewrite H. reflexivity.
Qed.

(** When the handlers are reached, the link text area is instantiated. *)
Lemma input_widgets_run (r : Run) :
  exists r',
    input_widgets r = (r', Ok tt)
    /\ session r' = session r /\ world r' = world r /\ calls r' = calls r
    /\ widget_keys r'
       = links_key :: uploader_key (uploader_version (session r))
         :: widget_keys r.
Proof.
  unfold input_widgets, bind, emit, session_get, register_widget. simpl.
  eexists. split; [reflexivity|]. simpl. repeat split; reflexivity.
Qed.

(** C8 (the clear-links half, as the script runs it). In every session,
    a run in which Clear Links + Drag Content is the button pressed stops
    at the assignment to [links_input] with Streamlit's exception: the
    link text is not reset, the upload version is not changed and no
    entry is appended to the status log. *)
Theorem clear_links_click_is_refused
  (s : Session) (w : World) (file : option UploadedFile) (other : bool) :
  exists r',
    script (mkInputs file false false true other) (start_run s w)
    = (r', Raise (StreamlitAPIException links_key))
    /\ session r' = s /\ world r' = w /\ calls r' = [].
Proof.
  unfold script, start_run.
  unfold bind at 1, emit at 1. unfold bind at 1, emit at 1.
  cbn [session widget_keys ui world calls].
  unfold bind at 1.
  match goal with
  | |- context [input_widgets ?r0] =>
      destruct (input_widgets_run r0) as [r1 [E [S1 [W1 [C1 K1]]]]]
  end.
  rewrite E. cbn [session widget_keys ui world calls click_transcribe_upload
                    click_transcribe_links click_clear_links] in *.
  unfold bind at 1, emit at 1. unfold bind at 1, when at 1, ret at 1.
  unfold bind at 1, emit at 1. unfold bind at 1, when at 1, ret at 1.
  unfold bind at 1, emit at 1. unfold bind at 1, when at 1.
  rewrite clear_links_handler_locked.
  - eexists. split; [reflexivity|]. cbn [session world calls].
    repeat split; assumption.
  - unfold instantiated. cbn [widget_keys]. rewrite K1.
    cbn [existsb]. rewrite str_eqb_refl. reflexivity.
Qed.

(** C10. The two clearing actions do not reach into each other's state:
    however Clear Transcript ends, the link text and the upload version
    are as before; however the clear-links action ends, the transcript is
    as before; and in both the status log keeps its entries, in order, as
    a prefix of the new log. *)
Theorem clearing_actions_are_disjoint (r : Run) :
  (forall r' res,
      clear_transcript_handler r = (r', res) ->
      links_input (session r') = links_input (session r)
      /\ uploader_version (session r') = uploader_version (session r)
      /\ exists added,
          status_log (session r') = status_log (session r) ++ added)
  /\
  (forall r' res,
      clear_links_handler r = (r', res) ->
      transcript (session r') = transcript (session r)
      /\ exists added,
          status_log (session r') = status_log (session r) ++ added).
Proof.
  split; intros r' res H.
  - unfold clear_transcript_handler, bind, session_set in H.
    destruct (instantiated (lit "transcript") r).
    + injection H as <- _. repeat split. exists []. rewrite app_nil_r; reflexivity.
    + unfold status_log_append in H. injection H as <- _. simpl.
      repeat split. eexists; reflexivity.
  - unfold clear_links_handler, bind in H. unfold session_set at 1 in H.
    destruct (instantiated links_key r).
    + injection H as <- _. split; [reflexivity|].
      exists []. rewrite app_nil_r; reflexivity.
    + unfold session_get at 1 in H. unfold session_set at 1 in H.
      match type of H with
      | context [if ?b then _ else _] => destruct b
      end.
      * injection H as <- _. simpl. split; [reflexivity|].
        exists []. rewrite app_nil_r; reflexivity.
      * unfold status_log_append, raise in H. injection H as <- _. simpl.
        split; [reflexivity|]. eexists; reflexivity.
Qed.

(** ** Rendering *)

Lemma for_each_write (items : list str) (r : Run) :
  for_each (fun item => emit (WriteItem item)) items r
  = (mkRun (session r) (widget_keys r) (ui r ++ map WriteItem items)
           (world r) (calls r),
     Ok tt).
Proof.
  revert r; induction items as [|item rest IH]; intros r; simpl.
  - unfold ret. rewrite app_nil_r. destruct r; reflexivity.
  - unfold bind, emit. rewrite IH. simpl. rewrite <- app_assoc. reflexivity.
Qed.

Lemma slice_last_ten {A} (items : list A) :
  slice_from (-10) items = skipn (List.length items - 10) items.
Proof.
  unfold slice_from. change (-10 <? 0) with true. cbv iota.
  f_equal. lia.
Qed.

(** [reversed(log[-10:])] is the first ten entries of the log read from
    its end. *)
Lemma activity_items_most_recent (log : list str) :
  activity_items log = firstn 10 (rev log).
Proof.
  unfold activity_items. rewrite slice_last_ten, firstn_rev. reflexivity.
Qed.

(** C5. Whatever the status log holds, the activity feed writes at most
    ten items: the ten most recent entries of the log (all of them when
    there are fewer), the most recent first. *)
Theorem activity_feed_shows_ten_most_recent (r : Run) :
  let log := status_log (session r) in
  let items := firstn 10 (rev log) in
  let feed :=
    match log with
    | [] => []
    | _ :: _ => Subheader (lit "Activity") :: map WriteItem items
    end in
  render_activity r
  = (mkRun (session r) (widget_keys r) (ui r ++ feed) (world r) (calls r),
     Ok tt)
  /\ (List.length items <= 10)%nat
  /\ List.length items = Nat.min 10 (List.length log)
  /\ (forall i, (i < List.length items)%nat ->
        nth_error items i = nth_error log (List.length log - 1 - i)).
Proof.
  intros log items feed. split; [|split; [|split]].
  - unfold render_activity, bind, session_get. subst feed items log.
    destruct (status_log (session r)) as [|e log'] eqn:El.
    + unfold ret. rewrite app_nil_r. destruct r; reflexivity.
    + unfold emit at 1. rewrite for_each_write.
      cbn [session widget_keys ui world calls].
      rewrite activity_items_most_recent, <- app_assoc. reflexivity.
  - subst items. rewrite length_firstn. lia.
  - subst items. rewrite length_firstn, length_rev. reflexivity.
  - intros i Hi. subst items.
    rewrite length_firstn, length_rev in Hi.
    rewrite nth_error_firstn.
    destruct (Nat.ltb_spec i 10) as [_|Hge]; [|lia].
    rewrite nth_error_rev.
    destruct (Nat.ltb_spec i (List.length log)) as [_|Hge]; [|lia].
    f_equal. lia.
Qed.

Lemma utf8_char_scalar (c : codepoint) :
  is_scalar c = true -> exists b, utf8_char c = Some b.
Proof.
  unfold is_scalar, utf8_char. intros H.
  rewrite orb_true_iff, !andb_true_iff, !Z.leb_le, !Z.ltb_lt in H.
  destruct (Z.ltb_spec c 0); [lia|].
  destruct (Z.ltb_spec c 128); [eexists; reflexivity|].
  destruct (Z.ltb_spec c 2048); [eexists; reflexivity|].
  destruct (Z.leb_spec 55296 c); destruct (Z.ltb_spec c 57344); simpl;
    try lia;
    (destruct (Z.ltb_spec c 65536); [eexists; reflexivity|]);
    (destruct (Z.ltb_spec c 1114112); [eexists; reflexivity|lia]).
Qed.

(** Well-formed text has a UTF-8 form. *)
Lemma utf8_well_formed (s : str) :
  well_formed s -> exists data, utf8 s = Some data.
Proof.
  induction 1 as [|c s Hc _ [data E]]; simpl.
  - eexists; reflexivity.
  - destruct (utf8_char_scalar c Hc) as [b ->]. rewrite E.
    eexists; reflexivity.
Qed.

(** The elements of the transcript area and the download control. *)
Lemma render_download_run (r : Run) :
  render_download r
  = match transcript (session r) with
    | [] => (r, Ok tt)
    | _ :: _ =>
        match utf8 (transcript (session r)) with
        | Some data =>
            (mkRun (session r) (widget_keys r)
                   (ui r ++ [DownloadButton (lit "Download transcript (.txt)")
                               data (lit "transcript.txt") (lit "text/plain")])
                   (world r) (calls r),
             Ok tt)
        | None => (r, Raise UnicodeEncodeError)
        end
    end.
Proof.
  unfold render_download, bind, session_get, encode_utf8, ret, emit.
  destruct (transcript (session r)) as [|c t] eqn:Et; [reflexivity|].
  cbn [truthy]. cbv beta iota. rewrite ?Et.
  destruct (utf8 (c :: t)); reflexivity.
Qed.

(** C6. Whenever a run renders the download control, the bytes it offers
    are the UTF-8 form of the string that the same run shows in the
    transcript text area (so that decoding them gives that string back),
    and the file name is transcript.txt. *)
Theorem download_offers_the_shown_transcript (r r' : Run) (res : result unit) :
  bind render_transcript (fun _ => render_download) r = (r', res) ->
  exists shown rest,
    ui r'
    = ui r ++ [Divider; Subheader (lit "Transcript");
               TextArea (lit "Transcribed text (copy this)") shown None]
           ++ rest
    /\ shown = transcript (session r')
    /\ (forall label data file_name mime,
          In (DownloadButton label data file_name mime) rest ->
          utf8 shown = Some data
          /\ encode_utf8 shown = Ok data
          /\ utf8_decode data = Some shown
          /\ file_name = lit "transcript.txt").
Proof.
  unfold bind at 1. unfold render_transcript, bind, emit, session_get.
  cbn [session widget_keys ui world calls].
  rewrite render_download_run. cbn [session widget_keys ui world calls].
  intros H. exists (transcript (session r)).
  destruct (transcript (session r)) as [|c t] eqn:Et.
  - injection H as <- _. exists []. cbn [ui session].
    rewrite <- !app_assoc. split; [reflexivity|]. split; [auto|].
    intros ? ? ? ? [].
  - destruct (utf8 (c :: t)) as [data|] eqn:Eu.
    + injection H as <- _. eexists. cbn [ui session].
      rewrite <- !app_assoc. split; [reflexivity|]. split; [auto|].
      intros label d f m [Hin|[]]. injection Hin as _ <- <- _.
      unfold encode_utf8. rewrite Eu.
      repeat split; auto. apply utf8_decode_utf8; exact Eu.
    + injection H as <- _. exists []. cbn [ui session].
      rewrite <- !app_assoc. split; [reflexivity|]. split; [auto|].
      intros ? ? ? ? [].
Qed.

(** C9. The download control is rendered exactly when the transcript is
    not empty: an empty transcript renders nothing at all; a non-empty
    transcript (of well-formed text) renders the control; and a run of
    the rendering that completes has rendered the control if and only if
    the transcript is not empty. *)
Theorem download_offered_iff_transcript_nonempty (r : Run) :
  (transcript (session r) = [] -> render_download r = (r, Ok tt))
  /\ (transcript (session r) <> [] ->
      well_formed (transcript (session r)) ->
      exists data,
        render_download r
        = (mkRun (session r) (widget_keys r)
                 (ui r ++ [DownloadButton (lit "Download transcript (.txt)")
                             data (lit "transcript.txt") (lit "text/plain")])
                 (world r) (calls r),
           Ok tt))
  /\ (forall r',
        render_download r = (r', Ok tt) ->
        (exists label data file_name mime,
            ui r' = ui r ++ [DownloadButton label data file_name mime])
        <-> transcript (session r) <> []).
Proof.
  rewrite render_download_run. split; [|split].
  - intros ->. reflexivity.
  - intros Hne Hwf. destruct (utf8_well_formed _ Hwf) as [data E].
    exists data. rewrite E.
    destruct (transcript (session r)); [congruence | reflexivity].
  - intros r' H. destruct (transcript (session r)) as [|c t] eqn:Et.
    + injection H as <-. split; [|congruence].
      intros [l [d [f [m E]]]]. exfalso.
      apply (f_equal (@List.length _)) in E. rewrite length_app in E.
      simpl in E. lia.
    + split; [discriminate|]. intros _.
      destruct (utf8 (c :: t)); [|discriminate].
      injection H as <-. do 4 eexists. reflexivity.
Qed.

(** A transcript that holds a surrogate has no UTF-8 form: the run stops
    at the encoding with nothing rendered. *)
Lemma render_download_unencodable (r : Run) :
  utf8 (transcript (session r)) = None ->
  render_download r = (r, Raise UnicodeEncodeError).
Proof.
  intros H. rewrite render_download_run, H.
  destruct (transcript (session r)); [discriminate H | reflexivity].
Qed.

End Properties.

(** ** The theorems at work on the simulated collaborators *)

Lemma transcribe_media_joins_trimmed_segments_witness :
  let r := Sim.at_handlers Sim.session0 in
  let path := lit "/tmp/t/clip.mp3" in
  @whisper_model Sim.collaborators
    (lit "small") (lit "int8") (world r) = ([], Ok tt)
  /\ @model_transcribe Sim.collaborators tt path true 5 []
     = ([], Ok [mkSegment (lit " hello "); mkSegment (lit "  ");
                mkSegment (lit "world")])
  /\ snd (transcribe_media path r)
     = Ok (lit "hello" ++ [10] ++ lit "world").
Proof.
  intros r path.
  split; [reflexivity|]. split; [reflexivity|].
  destruct (transcribe_media_joins_trimmed_segments
              (C := Sim.collaborators) r path [] [] tt Sim.sim_segments
              eq_refl eq_refl) as [t [E [_ [_ [_ [J _]]]]]].
  rewrite E. f_equal.
  exact (J (lit "hello") [lit "world"] eq_refl).
Defined.

Lemma download_link_media_converted_or_downloaded_witness :
  let r := Sim.at_handlers Sim.session0 in
  let options := ydl_options (lit "/tmp/t/%(title).120s.%(ext)s") in
  @extract_info Sim.collaborators
    options (lit "https://a") (world r)
  = ([lit "/tmp/t/clip.mp3"], Ok (lit "/tmp/t/clip.webm"))
  /\ @prepare_filename Sim.collaborators
       options (lit "/tmp/t/clip.webm") [lit "/tmp/t/clip.mp3"]
     = ([lit "/tmp/t/clip.mp3"], Ok (lit "/tmp/t/clip.webm"))
  /\ snd (@download_link_media Sim.collaborators (lit "https://a") (lit "/tmp/t") r)
     = Ok (lit "/tmp/t/clip.mp3").
Proof.
  intros r options.
  split; [reflexivity|]. split; [reflexivity|].
  rewrite (proj1 (download_link_media_converted_or_downloaded
                    (C := Sim.collaborators) r (lit "https://a") (lit "/tmp/t")
                    [lit "/tmp/t/clip.mp3"] [lit "/tmp/t/clip.mp3"]
                    (lit "/tmp/t/clip.webm") (lit "/tmp/t/clip.webm")
                    eq_refl eq_refl)).
  reflexivity.
Defined.

Lemma transcribe_links_transcript_and_log_witness :
  let r := Sim.at_handlers Sim.session0 in
  let links := [lit "https://a"; lit "bad"; lit "raw"] in
  let outcomes := @link_outcomes Sim.collaborators (lit "/tmp/t") links [] in
  split_links (links_input (session r)) = links
  /\ existsb succeeded outcomes = true
  /\ exists r',
      transcribe_links_handler r = (r', Ok tt)
      /\ transcript (session r')
         = lit "### Source: https://a" ++ [10]
           ++ lit "hello" ++ [10] ++ lit "world"
           ++ [10; 10]
           ++ lit "### Source: raw" ++ [10]
           ++ lit "hello" ++ [10] ++ lit "world"
      /\ status_log (session r')
         = [lit "first";
            [9989] ++ lit " Transcribed link: https://a";
            [10060] ++ lit " Failed link: bad (Unsupported URL: bad)";
            [9989] ++ lit " Transcribed link: raw"].
Proof.
  intros r links outcomes.
  split; [reflexivity|]. split; [reflexivity|].
  destruct (transcribe_links_transcript_and_log
              (C := Sim.collaborators) r links eq_refl)
    as [r' [E [_ [_ [_ [_ [[first [others [S T]]] [_ [L _]]]]]]]]].
  - discriminate.
  - reflexivity.
  - vm_compute. repeat constructor.
  - reflexivity.
  - exists r'. split; [exact E|]. split.
    + rewrite T. vm_compute in S. injection S as <- <-. reflexivity.
    + rewrite L. reflexivity.
Defined.

Lemma transcript_replaced_wholesale_or_kept_witness :
  let r := @mkRun Sim.collaborators (mkSession 0 (lit "bad") (lit "old") []) [links_key] [] [] [] in
  exists r',
    transcribe_links_handler r = (r', Ok tt)
    /\ transcript (session r') = lit "old".
Proof.
  intros r.
  destruct (proj1 (transcript_replaced_wholesale_or_kept (C := Sim.collaborators))
              r [lit "bad"] eq_refl)
    as [r' [E [K _]]].
  - discriminate.
  - reflexivity.
  - vm_compute. repeat constructor.
  - exists r'. split; [exact E|]. apply K. reflexivity.
Defined.

Lemma transcribe_links_blank_only_warns_witness :
  let r := @mkRun Sim.collaborators (mkSession 3 (lit "  " ++ [13; 10] ++ [9] ++ [10])
                            (lit "old") [lit "first"])
                 [links_key] [] [] [] in
  transcribe_links_handler r
  = (@mkRun Sim.collaborators (session r) (widget_keys r)
           [Warning (lit "Please paste at least one link first.")] [] [],
     Ok tt).
Proof.
  intros r.
  apply (transcribe_links_blank_only_warns (C := Sim.collaborators) r).
  simpl. intros line [<-|[<-|[]]]; reflexivity.
Defined.

Lemma activity_feed_shows_ten_most_recent_witness :
  let log := map str_of_int [1; 2; 3; 4; 5; 6; 7; 8; 9; 10; 11; 12] in
  let r := @mkRun Sim.collaborators (mkSession 0 [] [] log) [] [] [] [] in
  (0 < List.length (firstn 10 (rev log)))%nat
  /\ nth_error (firstn 10 (rev log)) 0 = Some (lit "12")
  /\ nth_error (firstn 10 (rev log)) 0 = nth_error log (List.length log - 1 - 0).
Proof.
  intros log r. split; [simpl; lia|]. split; [reflexivity|].
  apply (proj2 (proj2 (proj2 (activity_feed_shows_ten_most_recent
                                (C := Sim.collaborators) r)))).
  simpl; lia.
Defined.

Lemma download_offers_the_shown_transcript_witness :
  let r := @mkRun Sim.collaborators (mkSession 0 [] ([233] ++ lit "t" ++ [233]) []) [] [] [] [] in
  exists shown rest,
    ui (fst (bind render_transcript (fun _ => render_download) r))
    = [Divider; Subheader (lit "Transcript");
       TextArea (lit "Transcribed text (copy this)") shown None] ++ rest
    /\ forall label data file_name mime,
        In (DownloadButton label data file_name mime) rest ->
        utf8 shown = Some data.
Proof.
  intros r.
  destruct (download_offers_the_shown_transcript
              (C := Sim.collaborators) r
              (fst (bind render_transcript (fun _ => render_download) r))
              (snd (bind render_transcript (fun _ => render_download) r))
              (surjective_pairing _))
    as [shown [rest [E [_ H]]]].
  exists shown, rest. split; [exact E|].
  intros label data file_name mime Hin.
  exact (proj1 (H label data file_name mime Hin)).
Defined.

Lemma download_offered_iff_transcript_nonempty_witness :
  let r := @mkRun Sim.collaborators (mkSession 0 [] ([233] ++ lit "t" ++ [233]) []) [] [] [] [] in
  transcript (session r) <> []
  /\ well_formed (transcript (session r))
  /\ exists data,
      render_download r
      = (@mkRun Sim.collaborators (session r) []
               [DownloadButton (lit "Download transcript (.txt)")
                  data (lit "transcript.txt") (lit "text/plain")] [] [],
         Ok tt).
Proof.
  intros r.
  assert (transcript (session r) <> []) as Hne by discriminate.
  assert (well_formed (transcript (session r))) as Hwf
      by (repeat constructor).
  split; [exact Hne|]. split; [exact Hwf|].
  exact (proj1 (proj2 (download_offered_iff_transcript_nonempty
                         (C := Sim.collaborators) r)) Hne Hwf).
Defined.

Lemma clearing_actions_are_disjoint_witness :
  let r := Sim.at_handlers Sim.session0 in
  links_input (session (fst (clear_transcript_handler r))) = Sim.pasted
  /\ transcript (session (fst (clear_links_handler r))) = lit "old".
Proof.
  intros r.
  destruct (clearing_actions_are_disjoint (C := Sim.collaborators) r) as [A B].
  split.
  - exact (proj1 (A _ _ (surjective_pairing _))).
  - exact (proj1 (B _ _ (surjective_pairing _))).
Defined.

(** * Further properties of the script *)

(** ** split_links *)

Lemma strip_idempotent (s : str) : strip (strip s) = strip s.
Proof.
  symmetry. apply is_trim_of_unique. split; [|split].
  - exists [], []. rewrite app_nil_r. auto.
  - intros c u H. eapply strip_head; exact H.
  - intros c u H. eapply strip_last; exact H.
Qed.

Lemma strip_chars (s : str) (c : codepoint) : In c (strip s) -> In c s.
Proof.
  intros H. destruct (strip_decompose s) as [pre [post [E _]]].
  rewrite E. apply in_or_app. right. apply in_or_app. left. exact H.
Qed.

(** No line holds a line boundary. *)
Lemma splitlines_from_no_break (n : nat) :
  forall s cur line,
    (List.length s <= n)%nat ->
    (forall c, In c cur -> islinebreak c = false) ->
    In line (splitlines_from cur s) ->
    forall c, In c line -> islinebreak c = false.
Proof.
  induction n as [|n IH]; intros s cur line Len Hcur Hl c Hc.
  - destruct s; [|simpl in Len; lia].
    simpl in Hl. destruct cur; [destruct Hl|].
    destruct Hl as [<-|[]]. apply Hcur. apply in_rev; exact Hc.
  - destruct s as [|x rest].
    + simpl in Hl. destruct cur; [destruct Hl|].
      destruct Hl as [<-|[]]. apply Hcur. apply in_rev; exact Hc.
    + simpl in Len. destruct (islinebreak x) eqn:B.
      * rewrite splitlines_from_break in Hl by exact B.
        destruct Hl as [<-|Hl].
        -- apply Hcur. apply in_rev; exact Hc.
        -- apply (IH (after_break x rest) [] line); auto.
           ++ pose proof (after_break_length x rest). lia.
           ++ intros ? [].
      * rewrite splitlines_from_char in Hl by exact B.
        apply (IH rest (x :: cur) line); auto; [lia|].
        intros d [<-|Hd]; [exact B | apply Hcur; exact Hd].
Qed.

Lemma split_links_clean (pasted link : str) :
  In link (split_links pasted) -> clean_link link.
Proof.
  intros H. split; [eapply split_links_nonblank; exact H|].
  unfold split_links in H. apply in_map_iff in H.
  destruct H as [line [<- H]]. apply filter_In in H. destruct H as [H _].
  split; [apply strip_idempotent|].
  intros c Hc. apply strip_chars in Hc.
  apply (splitlines_from_no_break (List.length pasted) pasted [] line); auto.
  intros ? [].
Qed.

(** Reading a stretch of text that holds no line boundary. *)
Lemma splitlines_from_line (l : str) :
  forall cur rest,
    (forall c, In c l -> islinebreak c = false) ->
    splitlines_from cur (l ++ rest) = splitlines_from (rev l ++ cur) rest.
Proof.
  induction l as [|x l IH]; intros cur rest H; [reflexivity|].
  change ((x :: l) ++ rest) with (x :: (l ++ rest)).
  rewrite splitlines_from_char by (apply H; left; reflexivity).
  rewrite IH by (intros c Hc; apply H; right; exact Hc).
  simpl. rewrite <- app_assoc. reflexivity.
Qed.

Lemma splitlines_join (links : list str) :
  Forall clean_link links -> splitlines (join newline links) = links.
Proof.
  unfold splitlines. induction 1 as [|l ls [Hne [_ Hnb]] Hls IH]; [reflexivity|].
  destruct ls as [|l2 ls'].
  - simpl join. rewrite <- (app_nil_r l) at 1.
    rewrite splitlines_from_line by exact Hnb. rewrite app_nil_r. simpl.
    destruct (rev l) eqn:R.
    + apply (f_equal (@rev _)) in R. rewrite rev_involutive in R.
      simpl in R. congruence.
    + rewrite <- R, rev_involutive. reflexivity.
  - change (join newline (l :: l2 :: ls'))
      with (l ++ 10 :: join newline (l2 :: ls')).
    rewrite splitlines_from_line by exact Hnb.
    rewrite splitlines_from_break by reflexivity.
    rewrite app_nil_r, rev_involutive. f_equal.
    replace (after_break 10 (join newline (l2 :: ls')))
      with (join newline (l2 :: ls')); [exact IH|].
    unfold after_break. destruct (join newline (l2 :: ls')); reflexivity.
Qed.

Lemma split_links_join (links : list str) :
  Forall clean_link links -> split_links (join newline links) = links.
Proof.
  intros H. unfold split_links. rewrite (splitlines_join links H).
  induction H as [|l ls [Hne [Hs Hnb]] Hls IH]; [reflexivity|].
  cbn [filter]. rewrite Hs.
  replace (truthy l) with true
    by (symmetry; apply truthy_true; exact Hne).
  cbn [map]. rewrite Hs. f_equal. exact IH.
Qed.

Lemma splitlines_join_crlf (links : list str) :
  Forall clean_link links -> splitlines (join [13; 10] links) = links.
Proof.
  unfold splitlines. induction 1 as [|l ls [Hne [_ Hnb]] Hls IH]; [reflexivity|].
  destruct ls as [|l2 ls'].
  - simpl join. rewrite <- (app_nil_r l) at 1.
    rewrite splitlines_from_line by exact Hnb. rewrite app_nil_r. simpl.
    destruct (rev l) eqn:R.
    + apply (f_equal (@rev _)) in R. rewrite rev_involutive in R.
      simpl in R. congruence.
    + rewrite <- R, rev_involutive. reflexivity.
  - change (join [13; 10] (l :: l2 :: ls'))
      with (l ++ 13 :: 10 :: join [13; 10] (l2 :: ls')).
    rewrite splitlines_from_line by exact Hnb.
    rewrite splitlines_from_break by reflexivity.
    rewrite app_nil_r, rev_involutive. f_equal. exact IH.
Qed.

Lemma split_links_of_lines (pasted : str) (links : list str) :
  splitlines pasted = links -> Forall clean_link links ->
  split_links pasted = links.
Proof.
  intros E H. unfold split_links. rewrite E. clear E.
  induction H as [|l ls [Hne [Hs Hnb]] Hls IH]; [reflexivity|].
  cbn [filter]. rewrite Hs.
  replace (truthy l) with true
    by (symmetry; apply truthy_true; exact Hne).
  cbn [map]. rewrite Hs. f_equal. exact IH.
Qed.

(** X1. [split_links] finds no link exactly when the pasted text is
    whitespace throughout (line boundaries included), the empty text being
    one such. *)
Theorem split_links_empty_iff_whitespace (pasted : str) :
  split_links pasted = [] <-> forallb isspace pasted = true.
Proof. exact (split_links_nil_iff_blank pasted). Qed.

(** X2. Every link [split_links] returns is non-empty, is unchanged by
    [strip], starts and ends with a character that is not whitespace and
    holds no line boundary. *)
Theorem split_links_yields_clean_links (pasted link : str) :
  In link (split_links pasted) ->
  link <> []
  /\ strip link = link
  /\ (forall c, In c link -> islinebreak c = false)
  /\ (forall c rest, link = c :: rest -> isspace c = false)
  /\ (forall c front, link = front ++ [c] -> isspace c = false).
Proof.
  intros H. destruct (split_links_clean pasted link H) as [Hne [Hs Hnb]].
  repeat split; auto.
  - intros c rest E. rewrite <- Hs in E. eapply strip_head; exact E.
  - intros c front E. rewrite <- Hs in E. eapply strip_last; exact E.
Qed.

(** X3. Links that are non-empty, trimmed and free of line boundaries,
    pasted one per line, are found again by [split_links], in order,
    whether the lines end in a line feed or in a carriage return and a
    line feed. *)
Theorem split_links_round_trip (links : list str) :
  Forall clean_link links ->
  split_links (join newline links) = links
  /\ split_links (join [13; 10] links) = links.
Proof.
  intros H. split; [exact (split_links_join links H)|].
  apply split_links_of_lines; [apply splitlines_join_crlf|]; exact H.
Qed.

(** X4. [split_links] normalises: writing the links it found one per
    line and splitting again gives the same links. *)
Theorem split_links_idempotent (pasted : str) :
  split_links (join newline (split_links pasted)) = split_links pasted.
Proof.
  apply split_links_join. apply Forall_forall. intros link H.
  eapply split_links_clean; exact H.
Qed.

(** ** transcribe_media and download_link_media *)

Lemma join_starts (sep t : str) (ts : list str) :
  exists rest, join sep (t :: ts) = t ++ rest.
Proof.
  destruct ts as [|t2 ts].
  - exists []. simpl. rewrite app_nil_r. reflexivity.
  - eexists. reflexivity.
Qed.

Lemma join_cons (sep a : str) (l : list str) :
  l <> [] -> join sep (a :: l) = a ++ sep ++ join sep l.
Proof. destruct l; [congruence | reflexivity]. Qed.

Lemma join_ends (sep : str) (ts : list str) (t : str) :
  exists front, join sep (ts ++ [t]) = front ++ t.
Proof.
  induction ts as [|a ts [front E]].
  - exists []. reflexivity.
  - exists (a ++ sep ++ front).
    change ((a :: ts) ++ [t]) with (a :: (ts ++ [t])).
    rewrite join_cons by (destruct ts; discriminate).
    rewrite E, <- !app_assoc. reflexivity.
Qed.

Lemma join_nil_iff (sep : str) (ts : list str) :
  Forall (fun t => t <> []) ts -> (join sep ts = [] <-> ts = []).
Proof.
  intros H. split; [|intros ->; reflexivity].
  destruct ts as [|t ts]; [reflexivity|]. intros E. exfalso.
  inversion H as [|? ? Ht _]; subst.
  destruct (join_starts sep t ts) as [rest R]. rewrite R in E.
  apply app_eq_nil in E. destruct E; congruence.
Qed.

(** Joining trimmed, non-empty texts gives a trimmed text. *)
Lemma strip_join (sep : str) (ts : list str) :
  Forall (fun t => t <> [] /\ strip t = t) ts ->
  strip (join sep ts) = join sep ts.
Proof.
  intros H. symmetry. apply is_trim_of_unique. split; [|split].
  - exists [], []. rewrite app_nil_r. auto.
  - intros c u E. destruct ts as [|t ts]; [discriminate E|].
    inversion H as [|? ? [Ht Hs] _]; subst.
    destruct (join_starts sep t ts) as [rest R]. rewrite R in E.
    destruct t as [|d t']; [congruence|]. simpl in E. injection E as -> _.
    eapply strip_head. exact Hs.
  - intros c u E.
    destruct ts as [|t0 ts0] using rev_ind; [destruct u; discriminate E|].
    clear IHts0. apply Forall_app in H. destruct H as [_ H].
    inversion H as [|? ? [Ht Hs] _]; subst.
    destruct (join_ends sep ts0 t0) as [front R]. rewrite R in E.
    destruct (exists_last Ht) as [t' [d Et]]. rewrite Et in E.
    rewrite app_assoc in E. apply app_inj_tail in E. destruct E as [_ <-].
    eapply strip_last. rewrite Hs. exact Et.
Qed.

Lemma trimmed_nonempty_texts_clean (segments : list Segment) :
  Forall (fun t => t <> [] /\ strip t = t) (trimmed_nonempty_texts segments).
Proof.
  apply Forall_forall. intros t H. unfold trimmed_nonempty_texts in H.
  apply filter_In in H. destruct H as [H Ht]. apply truthy_true in Ht.
  split; [exact Ht|]. apply in_map_iff in H. destruct H as [s [<- _]].
  apply strip_idempotent.
Qed.

Lemma trimmed_nonempty_texts_nil_iff (segments : list Segment) :
  trimmed_nonempty_texts segments = [] <->
  (forall s, In s segments -> forallb isspace (text s) = true).
Proof.
  unfold trimmed_nonempty_texts. rewrite filter_nil_iff. split.
  - intros H s Hs. apply strip_nil_iff. apply truthy_false. apply H.
    apply in_map_iff. exists s. auto.
  - intros H t Ht. apply in_map_iff in Ht. destruct Ht as [s [<- Hs]].
    apply truthy_false. apply strip_nil_iff. apply H; exact Hs.
Qed.

Section MoreProperties.

Context {C : Collaborators}.

Lemma transcribe_media_ok
  (r : Run) (path : str) (w1 w2 : World) (model : Model)
  (segments : list Segment) :
  whisper_model (lit "small") (lit "int8") (world r) = (w1, Ok model) ->
  model_transcribe model path true 5 w1 = (w2, Ok segments) ->
  transcribe_media path r
  = (mkRun (session r) (widget_keys r) (ui r) w2
           (calls r ++ [CallLoadModel; CallTranscribe path]),
     Ok (join newline (trimmed_nonempty_texts segments))).
Proof.
  intros Hm Ht. unfold transcribe_media, load_model, bind, collaborate, ret.
  rewrite Hm. simpl. rewrite Ht. simpl.
  unfold trimmed_nonempty_texts.
  rewrite <- (map_filter_comm (fun s => strip (text s)) truthy).
  rewrite <- app_assoc. reflexivity.
Qed.

(** X5. The text [transcribe_media] returns is itself trimmed (it
    neither starts nor ends with whitespace, so [strip] leaves it as it
    is), and it is empty exactly when every segment is blank. *)
Theorem transcribe_media_text_is_trimmed
  (r : Run) (path : str) (w1 w2 : World) (model : Model)
  (segments : list Segment) :
  whisper_model (lit "small") (lit "int8") (world r) = (w1, Ok model) ->
  model_transcribe model path true 5 w1 = (w2, Ok segments) ->
  exists t,
    snd (transcribe_media path r) = Ok t
    /\ strip t = t
    /\ (t = [] <->
        forall s, In s segments -> forallb isspace (text s) = true).
Proof.
  intros Hm Ht. rewrite (transcribe_media_ok r path w1 w2 model segments Hm Ht).
  eexists. split; [reflexivity|]. split.
  - apply strip_join. apply trimmed_nonempty_texts_clean.
  - rewrite <- trimmed_nonempty_texts_nil_iff. apply join_nil_iff.
    eapply Forall_impl; [|apply trimmed_nonempty_texts_clean].
    intros t [H _]; exact H.
Qed.

(** [transcribe_media] has no handler of its own: when the model
    cannot be loaded it raises that exception without calling
    [model.transcribe]; when [model.transcribe] raises it raises that
    exception; in both cases no text is returned. *)
Lemma transcribe_media_propagates_failure
  (r : Run) (path : str) (exc : exn) :
  (forall w1,
      whisper_model (lit "small") (lit "int8") (world r) = (w1, Raise exc) ->
      transcribe_media path r
      = (mkRun (session r) (widget_keys r) (ui r) w1
               (calls r ++ [CallLoadModel]),
         Raise exc))
  /\
  (forall w1 w2 model,
      whisper_model (lit "small") (lit "int8") (world r) = (w1, Ok model) ->
      model_transcribe model path true 5 w1 = (w2, Raise exc) ->
      transcribe_media path r
      = (mkRun (session r) (widget_keys r) (ui r) w2
               (calls r ++ [CallLoadModel; CallTranscribe path]),
         Raise exc)).
Proof.
  split.
  - intros w1 Hm. unfold transcribe_media, load_model, bind, collaborate.
    rewrite Hm. reflexivity.
  - intros w1 w2 model Hm Ht.
    unfold transcribe_media, load_model, bind, collaborate.
    rewrite Hm. simpl. rewrite Ht. rewrite <- app_assoc. reflexivity.
Qed.

(** X6. A link whose download fails is never handed to the speech model:
    when [extract_info] raises, the body of the [try] stops there, having
    made that one collaborator call. *)
Theorem failed_download_skips_transcription
  (r : Run) (url : str) (tmp_dir : Path) (w1 : World) (exc : exn) :
  let options :=
    ydl_options (path_str (path_div tmp_dir (lit "%(title).120s.%(ext)s"))) in
  extract_info options url (world r) = (w1, Raise exc) ->
  fetch_text url tmp_dir r
  = (mkRun (session r) (widget_keys r) (ui r) w1
           (calls r ++ [CallExtractInfo url]),
     Raise exc)
  /\ result_of (fetch_text url tmp_dir) (world r) = Raise exc
  /\ calls_of (fetch_text url tmp_dir) (world r) = [CallExtractInfo url].
Proof.
  intros options He.
  assert (forall r0 : Run,
             world r0 = world r ->
             fetch_text url tmp_dir r0
             = (mkRun (session r0) (widget_keys r0) (ui r0) w1
                      (calls r0 ++ [CallExtractInfo url]),
                Raise exc)) as H.
  { intros r0 E. unfold fetch_text, download_link_media, bind, collaborate.
    fold options. rewrite E, He. reflexivity. }
  split; [apply H; reflexivity|].
  unfold result_of, calls_of, on_world.
  rewrite (H (start_run new_session (world r)) eq_refl). split; reflexivity.
Qed.

Lemma download_link_media_ok
  (r : Run) (url : str) (out_dir : Path) (w1 w2 : World) (info : Info)
  (downloaded : str) :
  let options :=
    ydl_options (path_str (path_div out_dir (lit "%(title).120s.%(ext)s"))) in
  let converted := path_of (fst (splitext downloaded) ++ lit ".mp3") in
  extract_info options url (world r) = (w1, Ok info) ->
  prepare_filename options info w1 = (w2, Ok downloaded) ->
  download_link_media url out_dir r
  = (mkRun (session r) (widget_keys r) (ui r) w2
           (calls r ++ [CallExtractInfo url; CallPrepareFilename]),
     Ok (if path_exists converted w2 then converted else path_of downloaded)).
Proof.
  intros options converted He Hp.
  unfold download_link_media, bind, collaborate, ret.
  fold options. rewrite He. simpl. rewrite Hp. simpl.
  fold converted. rewrite <- app_assoc. simpl.
  destruct (path_exists converted w2); reflexivity.
Qed.

(** X7. When the downloaded file already carries the extension [.mp3],
    [download_link_media] returns the downloaded file's path whether or
    not the file exists: the candidate and the fallback are the same
    path. *)
Theorem download_link_media_of_mp3
  (r : Run) (url : str) (out_dir : Path) (w1 w2 : World) (info : Info)
  (downloaded : str) :
  let options :=
    ydl_options (path_str (path_div out_dir (lit "%(title).120s.%(ext)s"))) in
  extract_info options url (world r) = (w1, Ok info) ->
  prepare_filename options info w1 = (w2, Ok downloaded) ->
  snd (splitext downloaded) = lit ".mp3" ->
  snd (download_link_media url out_dir r) = Ok (path_of downloaded).
Proof.
  intros options He Hp Hx.
  rewrite (download_link_media_ok r url out_dir w1 w2 info downloaded He Hp).
  cbn [snd]. rewrite <- Hx, splitext_concat.
  destruct (path_exists (path_of downloaded) w2); reflexivity.
Qed.

Lemma rfind_lower (c : codepoint) (p : str) : -1 <= rfind c p.
Proof.
  destruct (rfind_spec c p) as [[-> _]|[a [b [_ [_ ->]]]]]; lia.
Qed.

Lemma _splitext_no_dot (p : str) (sep : codepoint) (altsep : option codepoint) :
  ~ In extsep p -> OsPath._splitext p sep altsep = (p, []).
Proof.
  intros H. unfold OsPath._splitext.
  destruct (rfind_spec extsep p) as [[E _]|[a [b [E _]]]].
  - rewrite E.
    pose proof (rfind_lower sep p).
    assert (((match altsep with
              | Some a => Z.max (rfind sep p) (rfind a p)
              | None => rfind sep p
              end) <? -1) = false) as ->; [|reflexivity].
    apply Z.ltb_ge. destruct altsep; lia.
  - exfalso. apply H. rewrite E. apply in_or_app. right. left. reflexivity.
Qed.

(** X8. When the downloaded file's name holds no dot, nothing is taken
    off it: the converted candidate is the whole name followed by
    [.mp3]. *)
Theorem download_link_media_without_extension
  (r : Run) (url : str) (out_dir : Path) (w1 w2 : World) (info : Info)
  (downloaded : str) :
  let options :=
    ydl_options (path_str (path_div out_dir (lit "%(title).120s.%(ext)s"))) in
  let converted := path_of (downloaded ++ lit ".mp3") in
  extract_info options url (world r) = (w1, Ok info) ->
  prepare_filename options info w1 = (w2, Ok downloaded) ->
  ~ In extsep downloaded ->
  snd (download_link_media url out_dir r)
  = Ok (if path_exists converted w2 then converted else path_of downloaded).
Proof.
  intros options converted He Hp Hd.
  rewrite (download_link_media_ok r url out_dir w1 w2 info downloaded He Hp).
  cbn [snd]. unfold splitext. rewrite (_splitext_no_dot _ _ _ Hd).
  reflexivity.
Qed.

(** ** The upload handler *)

(** X9. When the uploaded file is written but its transcription fails
    with an [Exception], the upload handler ends normally having rendered
    the failure as an error: the session state is untouched, so the old
    transcript stays and, unlike a failing link, the failure leaves no
    entry in the status log. *)
Theorem upload_failure_shows_error_and_keeps_state
  (r : Run) (file : UploadedFile) (w2 : World) (exc : exn) :
  let tmp := snd (tmp_create (world r)) in
  let input_path := path_div (path_of tmp) (name file) in
  write_bytes input_path (content file) (fst (tmp_create (world r)))
  = (w2, Ok tt) ->
  result_of (transcribe_media (path_str input_path)) w2 = Raise exc ->
  exn_is_Exception exc = true ->
  exists r',
    transcribe_upload_handler (Some file) r = (r', Ok tt)
    /\ session r' = session r
    /\ ui r'
       = ui r ++ [Spinner (lit "Transcribing uploaded media...");
                  Error (lit "Failed to transcribe uploaded media: "
                         ++ exn_text exc)].
Proof.
  intros tmp input_path Hw Ht Hx.
  unfold transcribe_upload_handler, with_temporary_directory.
  subst tmp input_path. destruct (tmp_create (world r)) as [w1 tmp] eqn:Etmp.
  cbn [fst snd] in *.
  unfold bind at 1, collaborate at 1. cbn [world]. rewrite Hw.
  unfold bind at 1, emit at 1. cbn beta iota.
  unfold try_except, bind at 1.
  rewrite (world_only_transcribe_media _ _). cbn [world]. rewrite Ht, Hx.
  unfold emit. cbn [session widget_keys ui world calls].
  eexists. split; [reflexivity|]. cbn [session ui].
  rewrite <- app_assoc. split; reflexivity.
Qed.

(** X10. Writing the uploaded file happens outside the [try]: when it
    fails, the upload handler raises that exception, also when it is an
    [Exception]; nothing is rendered, the session state is untouched, the
    speech model is not called and the temporary directory is removed. *)
Theorem upload_write_failure_propagates
  (r : Run) (file : UploadedFile) (w2 : World) (exc : exn) :
  let tmp := snd (tmp_create (world r)) in
  let input_path := path_div (path_of tmp) (name file) in
  write_bytes input_path (content file) (fst (tmp_create (world r)))
  = (w2, Raise exc) ->
  transcribe_upload_handler (Some file) r
  = (mkRun (session r) (widget_keys r) (ui r) (tmp_cleanup tmp w2)
           (calls r ++ [CallWriteBytes (path_str input_path)]),
     Raise exc).
Proof.
  intros tmp input_path Hw.
  unfold transcribe_upload_handler, with_temporary_directory.
  subst tmp input_path. destruct (tmp_create (world r)) as [w1 tmp] eqn:Etmp.
  cbn [fst snd] in *.
  unfold bind at 1, collaborate at 1. cbn [world]. rewrite Hw.
  reflexivity.
Qed.

(** ** The loop over the links, one turn at a time *)

Lemma links_loop_step (total : Z) (tmp_dir : Path) (idx : Z) (url : str)
  (rest : list str) (collected : list str) (r : Run) :
  let r1 :=
    mkRun (session r) (widget_keys r) (ui r ++ [link_spinner idx total])
          (world_after (fetch_text url tmp_dir) (world r))
          (calls r ++ calls_of (fetch_text url tmp_dir) (world r)) in
  links_loop total tmp_dir idx (url :: rest) collected r
  = match result_of (fetch_text url tmp_dir) (world r) with
    | Ok text =>
        links_loop total tmp_dir (idx + 1) rest
          (collected ++ [section_of url text])
          (fst (status_log_append (success_entry url) r1))
    | Raise exc =>
        if exn_is_Exception exc then
          links_loop total tmp_dir (idx + 1) rest collected
            (fst (status_log_append (failure_entry url exc) r1))
        else (r1, Raise exc)
    end.
Proof.
  intros r1. subst r1. cbn [links_loop].
  unfold bind at 1. unfold emit at 1. cbn beta iota.
  unfold bind at 1. unfold try_except at 1.
  match goal with
  | |- context [bind (download_link_media url tmp_dir) ?k ?r0] =>
      change (bind (download_link_media url tmp_dir) k r0)
        with (bind (download_link_media url tmp_dir)
                (fun media_path =>
                   bind (transcribe_media (path_str media_path))
                     (fun text =>
                        bind (status_log_append (success_entry url))
                          (fun _ => ret (collected ++ [section_of url text]))))
                r0);
      rewrite <- (bind_assoc (download_link_media url tmp_dir)
                    (fun media_path => transcribe_media (path_str media_path))
                    (fun text =>
                       bind (status_log_append (success_entry url))
                         (fun _ => ret (collected ++ [section_of url text])))
                    r0)
  end.
  fold (fetch_text url tmp_dir).
  unfold bind at 1. rewrite (world_only_fetch_text url tmp_dir).
  cbn [world session widget_keys ui calls]. unfold link_spinner.
  destruct (result_of (fetch_text url tmp_dir) (world r)) as [text|exc].
  - cbn beta iota. unfold bind at 1, status_log_append at 1, ret at 1.
    reflexivity.
  - cbn beta iota. destruct (exn_is_Exception exc); [|reflexivity].
    unfold bind at 1, status_log_append at 1, ret at 1. reflexivity.
Qed.

Ltac run_fields :=
  unfold status_log_append;
  cbn [fst snd with_session session widget_keys ui world calls
         uploader_version links_input transcript status_log].

(** The loop when every failure is one it catches: the whole run state
    it leaves. *)
Lemma links_loop_explicit (total : Z) (tmp_dir : Path) (links : list str) :
  forall (idx : Z) (collected : list str) (r : Run),
    let outcomes := link_outcomes tmp_dir links (world r) in
    Forall survivable outcomes ->
    links_loop total tmp_dir idx links collected r
    = (mkRun (mkSession (uploader_version (session r))
                        (links_input (session r)) (transcript (session r))
                        (status_log (session r) ++ map entry_of outcomes))
             (widget_keys r)
             (ui r ++ link_spinners total idx links)
             (world_after_links tmp_dir links (world r))
             (calls r ++ link_calls tmp_dir links (world r)),
       Ok (collected ++ sections_of outcomes)).
Proof.
  induction links as [|url rest IH]; intros idx collected r outcomes Hs.
  - subst outcomes. destruct r as [s k u w c]. destruct s.
    cbn. unfold ret. rewrite !app_nil_r. reflexivity.
  - subst outcomes. rewrite links_loop_step.
    cbn [link_outcomes link_spinners world_after_links link_calls] in *.
    inversion Hs as [|o os Ho Hos]; subst.
    destruct (result_of (fetch_text url tmp_dir) (world r)) as [text|exc].
    + rewrite IH by (run_fields; exact Hos). run_fields.
      cbn [map entry_of sections_of]. rewrite <- !app_assoc. reflexivity.
    + simpl in Ho. rewrite Ho.
      rewrite IH by (run_fields; exact Hos). run_fields.
      cbn [map entry_of sections_of]. rewrite <- !app_assoc. reflexivity.
Qed.

(** The loop however it ends: it leaves the link text, the upload
    version, the transcript and the widgets alone and only adds to the
    status log, at most one entry per link. *)
Lemma links_loop_frame (total : Z) (tmp_dir : Path) (links : list str) :
  forall (idx : Z) (collected : list str) (r r' : Run)
         (res : result (list str)),
    links_loop total tmp_dir idx links collected r = (r', res) ->
    uploader_version (session r') = uploader_version (session r)
    /\ links_input (session r') = links_input (session r)
    /\ transcript (session r') = transcript (session r)
    /\ widget_keys r' = widget_keys r
    /\ exists added,
        status_log (session r') = status_log (session r) ++ added
        /\ (List.length added <= List.length links)%nat.
Proof.
  induction links as [|url rest IH]; intros idx collected r r' res H.
  - cbn in H. unfold ret in H. injection H as <- _.
    repeat split. exists []. rewrite app_nil_r. split; [reflexivity|simpl; lia].
  - rewrite links_loop_step in H.
    destruct (result_of (fetch_text url tmp_dir) (world r)) as [text|exc].
    + apply IH in H. revert H. run_fields.
      intros [U [L [T [K [added [E Len]]]]]]. repeat split; auto.
      exists (success_entry url :: added). rewrite E, <- app_assoc.
      split; [reflexivity | simpl; lia].
    + destruct (exn_is_Exception exc).
      * apply IH in H. revert H. run_fields.
        intros [U [L [T [K [added [E Len]]]]]]. repeat split; auto.
        exists (failure_entry url exc :: added). rewrite E, <- app_assoc.
        split; [reflexivity | simpl; lia].
      * injection H as <- _. run_fields. repeat split.
        exists []. rewrite app_nil_r. split; [reflexivity | simpl; lia].
Qed.

(** The loop when a link fails with an exception that [except Exception]
    does not catch: it stops at that link. *)
Lemma links_loop_interrupted (total : Z) (tmp_dir : Path) (url : str)
  (post : list str) (exc : exn) (pre : list str) :
  forall (idx : Z) (collected : list str) (r : Run),
    Forall survivable (link_outcomes tmp_dir pre (world r)) ->
    result_of (fetch_text url tmp_dir) (world_after_links tmp_dir pre (world r))
    = Raise exc ->
    exn_is_Exception exc = false ->
    exists r',
      links_loop total tmp_dir idx (pre ++ url :: post) collected r
      = (r', Raise exc)
      /\ transcript (session r') = transcript (session r)
      /\ status_log (session r')
         = status_log (session r)
           ++ map entry_of (link_outcomes tmp_dir pre (world r))
      /\ calls r'
         = calls r ++ link_calls tmp_dir (pre ++ [url]) (world r).
Proof.
  induction pre as [|p pre IH]; intros idx collected r Hs Hr Hx.
  - cbn [app link_outcomes world_after_links map link_calls] in *.
    rewrite links_loop_step, Hr, Hx.
    eexists. split; [reflexivity|]. run_fields.
    rewrite !app_nil_r. repeat split; reflexivity.
  - cbn [app link_outcomes world_after_links map link_calls] in *.
    inversion Hs as [|o os Ho Hos]; subst.
    rewrite links_loop_step.
    destruct (result_of (fetch_text p tmp_dir) (world r)) as [text|e0].
    + match goal with
      | |- context [links_loop total tmp_dir (idx + 1) _ ?c ?r1] =>
          destruct (IH (idx + 1) c r1) as [r' [E [T [L K]]]];
            [run_fields; exact Hos | run_fields; exact Hr | exact Hx |]
      end.
      exists r'. split; [exact E|]. revert T L K. run_fields.
      intros T L K. rewrite T, L, K. cbn [entry_of].
      rewrite <- !app_assoc. repeat split; reflexivity.
    + simpl in Ho. rewrite Ho.
      match goal with
      | |- context [links_loop total tmp_dir (idx + 1) _ ?c ?r1] =>
          destruct (IH (idx + 1) c r1) as [r' [E [T [L K]]]];
            [run_fields; exact Hos | run_fields; exact Hr | exact Hx |]
      end.
      exists r'. split; [exact E|]. revert T L K. run_fields.
      intros T L K. rewrite T, L, K. cbn [entry_of].
      rewrite <- !app_assoc. repeat split; reflexivity.
Qed.

(** ** The Transcribe Links handler *)

(** The whole run state the handler leaves when every failure is one the
    loop catches. *)
Lemma transcribe_links_handler_explicit (r : Run) (links : list str) :
  let tmp := snd (tmp_create (world r)) in
  let w1 := fst (tmp_create (world r)) in
  let outcomes := link_outcomes (path_of tmp) links w1 in
  split_links (links_input (session r)) = links ->
  links <> [] ->
  instantiated (lit "transcript") r = false ->
  Forall survivable outcomes ->
  transcribe_links_handler r
  = (mkRun (mkSession (uploader_version (session r))
                      (links_input (session r))
                      (transcript_after (transcript (session r)) outcomes)
                      (status_log (session r) ++ map entry_of outcomes))
           (widget_keys r)
           (ui r ++ link_spinners (Z.of_nat (List.length links)) 1 links)
           (tmp_cleanup tmp (world_after_links (path_of tmp) links w1))
           (calls r ++ link_calls (path_of tmp) links w1),
     Ok tt).
Proof.
  intros tmp w1 outcomes El Hne Hk Hs.
  unfold transcribe_links_handler, bind at 1, session_get at 1.
  rewrite El. destruct links as [|l0 ls]; [congruence|]. clear Hne.
  unfold with_temporary_directory.
  subst tmp w1 outcomes. destruct (tmp_create (world r)) as [w1 tmp] eqn:Etmp.
  cbn [fst snd] in *.
  unfold bind at 1.
  rewrite links_loop_explicit by exact Hs.
  cbn [world session widget_keys ui calls app].
  unfold transcript_after.
  destruct (sections_of (link_outcomes (path_of tmp) (l0 :: ls) w1))
    as [|s0 ss] eqn:Es.
  - unfold ret. reflexivity.
  - unfold session_set. unfold instantiated in *.
    cbn [widget_keys]. rewrite Hk. reflexivity.
Qed.

(** X11. However the Transcribe Links handler ends (normally, refused or
    interrupted), it leaves the pasted link text, the upload version and
    the widgets as they were, and the status log keeps its entries as a
    prefix, gaining at most one entry per link. *)
Theorem transcribe_links_keeps_inputs (r r' : Run) (res : result unit) :
  transcribe_links_handler r = (r', res) ->
  links_input (session r') = links_input (session r)
  /\ uploader_version (session r') = uploader_version (session r)
  /\ widget_keys r' = widget_keys r
  /\ exists added,
      status_log (session r') = status_log (session r) ++ added
      /\ (List.length added
          <= List.length (split_links (links_input (session r))))%nat.
Proof.
  unfold transcribe_links_handler, bind at 1, session_get at 1.
  destruct (split_links (links_input (session r))) as [|l0 ls] eqn:El.
  - unfold emit. intros [= <- _]. cbn [session widget_keys].
    repeat split. exists []. rewrite app_nil_r. split; [reflexivity|simpl; lia].
  - unfold with_temporary_directory.
    destruct (tmp_create (world r)) as [w1 tmp].
    unfold bind at 1.
    destruct (links_loop _ _ _ _ _ _) as [r2 [collected|e]] eqn:EL;
      apply links_loop_frame in EL; revert EL;
      cbn [session widget_keys]; intros [U [L [T [K [added [E Len]]]]]].
    + destruct collected as [|c cs].
      * unfold ret. intros [= <- _]. cbn [session widget_keys].
        repeat split; auto. exists added. auto.
      * unfold session_set. destruct (instantiated _ r2);
          intros [= <- _]; run_fields; cbn [set_transcript status_log
            links_input uploader_version];
          repeat split; auto; exists added; auto.
    + intros [= <- _]. cbn [session widget_keys].
      repeat split; auto. exists added. auto.
Qed.

Lemma fetch_text_extracts_once (url : str) (tmp_dir : Path) (w : World) :
  filter is_extract_info (calls_of (fetch_text url tmp_dir) w)
  = [CallExtractInfo url].
Proof.
  unfold calls_of, on_world, fetch_text, download_link_media, transcribe_media,
    load_model, bind, collaborate, ret, start_run.
  cbn [world session widget_keys ui calls].
  destruct (extract_info _ url w) as [w1 [info|e1]]; [|reflexivity].
  cbn [world session widget_keys ui calls].
  destruct (prepare_filename _ info w1) as [w2 [downloaded|e2]]; [|reflexivity].
  cbn [world session widget_keys ui calls].
  destruct (whisper_model _ _ w2) as [w3 [model|e3]]; [|reflexivity].
  cbn [world session widget_keys ui calls].
  destruct (model_transcribe model _ true 5 w3) as [w4 [segments|e4]];
    reflexivity.
Qed.

Lemma link_calls_extracts (tmp_dir : Path) (links : list str) :
  forall w,
    filter is_extract_info (link_calls tmp_dir links w)
    = map CallExtractInfo links.
Proof.
  induction links as [|url rest IH]; intros w; [reflexivity|].
  cbn [link_calls map]. rewrite filter_app, fetch_text_extracts_once, IH.
  reflexivity.
Qed.

(** X12. In a batch whose failures are all caught, the downloader is
    asked for every link exactly once, in the order of the links: a
    failing link neither stops the batch nor is tried again. *)
Theorem transcribe_links_tries_each_link_once (r : Run) (links : list str) :
  let tmp_dir := path_of (snd (tmp_create (world r))) in
  let outcomes := link_outcomes tmp_dir links (fst (tmp_create (world r))) in
  split_links (links_input (session r)) = links ->
  links <> [] ->
  instantiated (lit "transcript") r = false ->
  Forall survivable outcomes ->
  exists r' added,
    transcribe_links_handler r = (r', Ok tt)
    /\ calls r' = calls r ++ added
    /\ filter is_extract_info added = map CallExtractInfo links.
Proof.
  intros tmp_dir outcomes El Hne Hk Hs.
  rewrite (transcribe_links_handler_explicit r links El Hne Hk Hs).
  do 2 eexists. split; [reflexivity|]. cbn [calls].
  split; [reflexivity|]. apply link_calls_extracts.
Qed.

(** X13. A link that fails with an exception outside [Exception] (an
    interrupt) ends the batch there: the handler raises that exception,
    the links after it are never tried, the transcript stays as it was
    even when earlier links succeeded, and the status log holds the
    entries of the earlier links only. *)
Theorem transcribe_links_interrupted
  (r : Run) (pre : list str) (url : str) (post : list str) (exc : exn) :
  let tmp_dir := path_of (snd (tmp_create (world r))) in
  let w1 := fst (tmp_create (world r)) in
  split_links (links_input (session r)) = pre ++ url :: post ->
  Forall survivable (link_outcomes tmp_dir pre w1) ->
  result_of (fetch_text url tmp_dir) (world_after_links tmp_dir pre w1)
  = Raise exc ->
  exn_is_Exception exc = false ->
  exists r',
    transcribe_links_handler r = (r', Raise exc)
    /\ transcript (session r') = transcript (session r)
    /\ status_log (session r')
       = status_log (session r) ++ map entry_of (link_outcomes tmp_dir pre w1)
    /\ calls r' = calls r ++ link_calls tmp_dir (pre ++ [url]) w1.
Proof.
  intros tmp_dir w1 El Hs Hr Hx.
  unfold transcribe_links_handler, bind at 1, session_get at 1.
  rewrite El. destruct (pre ++ url :: post) as [|l0 ls] eqn:Ep;
    [destruct pre; discriminate Ep|]. rewrite <- Ep. clear Ep.
  unfold with_temporary_directory.
  subst tmp_dir w1. destruct (tmp_create (world r)) as [w1 tmp] eqn:Etmp.
  cbn [fst snd] in *.
  unfold bind at 1.
  destruct (links_loop_interrupted
              (Z.of_nat (List.length (pre ++ url :: post))) (path_of tmp)
              url post exc pre 1 []
              (mkRun (session r) (widget_keys r) (ui r) w1 (calls r)))
    as [r1 [E [T [L K]]]]; auto.
  rewrite E. exists (mkRun (session r1) (widget_keys r1) (ui r1)
                           (tmp_cleanup tmp (world r1)) (calls r1)).
  cbn [session calls world] in *. repeat split; assumption.
Qed.

Lemma link_spinners_seq (total : Z) (links : list str) :
  forall k,
    link_spinners total (Z.of_nat k) links
    = map (fun i => link_spinner (Z.of_nat i) total)
          (seq k (List.length links)).
Proof.
  induction links as [|url rest IH]; intros k; [reflexivity|].
  cbn [link_spinners List.length seq map]. f_equal.
  replace (Z.of_nat k + 1) with (Z.of_nat (S k)) by lia. apply IH.
Qed.

(** X14. A batch of N links whose failures are all caught renders
    exactly N spinners and nothing else, and the spinner of the i-th link
    reads "link i/N", counting from 1. *)
Theorem transcribe_links_counts_progress (r : Run) (links : list str) :
  let tmp_dir := path_of (snd (tmp_create (world r))) in
  let outcomes := link_outcomes tmp_dir links (fst (tmp_create (world r))) in
  let total := Z.of_nat (List.length links) in
  split_links (links_input (session r)) = links ->
  links <> [] ->
  instantiated (lit "transcript") r = false ->
  Forall survivable outcomes ->
  exists r',
    transcribe_links_handler r = (r', Ok tt)
    /\ ui r'
       = ui r ++ map (fun i =>
                        Spinner (lit "Downloading + transcribing link "
                                 ++ str_of_int (Z.of_nat i) ++ lit "/"
                                 ++ str_of_int total ++ lit "..."))
                     (seq 1 (List.length links)).
Proof.
  intros tmp_dir outcomes total El Hne Hk Hs.
  rewrite (transcribe_links_handler_explicit r links El Hne Hk Hs).
  eexists. split; [reflexivity|]. cbn [ui]. f_equal.
  exact (link_spinners_seq total links 1).
Qed.

(** ** Runs that only render *)

Ltac page_same :=
  intros r r' res [= <- _]; repeat split; exists [];
  cbn [ui]; rewrite app_nil_r; reflexivity.

Lemma page_only_ret {A} (a : A) : page_only (ret a).
Proof. page_same. Qed.

Lemma page_only_emit (e : Element) : page_only (emit e).
Proof. intros r r' res [= <- _]. repeat split. exists [e]. reflexivity. Qed.

Lemma page_only_register (key : str) : page_only (register_widget key).
Proof. page_same. Qed.

Lemma page_only_get {A} (f : Session -> A) : page_only (session_get f).
Proof. page_same. Qed.

Lemma page_only_pure {A} (f : Run -> result A) :
  page_only (fun r => (r, f r)).
Proof. page_same. Qed.

Lemma page_only_bind {A B} (m : M A) (k : A -> M B) :
  page_only m -> (forall a, page_only (k a)) -> page_only (bind m k).
Proof.
  intros Hm Hk r r' res. unfold bind.
  destruct (m r) as [r1 [a|e]] eqn:E; apply Hm in E;
    destruct E as [S1 [W1 [C1 [a1 U1]]]].
  - intros H. apply Hk in H. destruct H as [S2 [W2 [C2 [a2 U2]]]].
    repeat split; try congruence.
    exists (a1 ++ a2). rewrite U2, U1, app_assoc. reflexivity.
  - intros [= <- _]. repeat split; auto. exists a1. exact U1.
Qed.

Lemma page_only_when (b : bool) (m : M unit) :
  (b = true -> page_only m) -> page_only (when b m).
Proof.
  destruct b; simpl; intros H; [apply H; reflexivity | apply page_only_ret].
Qed.

Lemma page_only_for_each {A} (body : A -> M unit) (items : list A) :
  (forall a, page_only (body a)) -> page_only (for_each body items).
Proof.
  intros H. induction items as [|a items IH]; simpl.
  - apply page_only_ret.
  - apply page_only_bind; [apply H | intros _; exact IH].
Qed.

Ltac page_only_steps :=
  repeat first
    [ apply page_only_emit | apply page_only_ret | apply page_only_register
    | apply page_only_get
    | apply page_only_bind; [|intros ?] ].

Lemma page_only_input_widgets : page_only input_widgets.
Proof. unfold input_widgets. page_only_steps. Qed.

Lemma page_only_render_transcript : page_only render_transcript.
Proof. unfold render_transcript. page_only_steps. Qed.

Lemma page_only_render_download : page_only render_download.
Proof.
  unfold render_download. apply page_only_bind; [apply page_only_get|].
  intros shown. destruct (truthy shown); [|apply page_only_ret].
  apply page_only_bind; [apply page_only_get|]. intros value.
  apply page_only_bind; [apply (page_only_pure (fun _ => encode_utf8 value))|].
  intros data. apply page_only_emit.
Qed.

Lemma page_only_render_activity : page_only render_activity.
Proof.
  unfold render_activity. apply page_only_bind; [apply page_only_get|].
  intros log. destruct log; [apply page_only_ret|].
  apply page_only_bind; [apply page_only_emit|]. intros _.
  apply page_only_for_each. intros item. apply page_only_emit.
Qed.

(** X15. A run in which no button reports a click, or only Transcribe
    Uploaded Video does while the upload widget holds no file, leaves the
    session state as it found it, does not touch the world and calls no
    collaborator, however the rendering ends (the download control can
    fail on a transcript that does not encode). *)
Theorem quiet_run_changes_nothing
  (inp : Inputs) (s : Session) (w : World) (r' : Run) (res : result unit) :
  click_transcribe_links inp = false ->
  click_clear_links inp = false ->
  click_clear_transcript inp = false ->
  (click_transcribe_upload inp = true -> uploaded_file inp = None) ->
  script inp (start_run s w) = (r', res) ->
  session r' = s /\ world r' = w /\ calls r' = [].
Proof.
  intros H1 H2 H3 H0 H.
  assert (page_only (script inp)) as P.
  { unfold script. rewrite H1, H2, H3.
    apply page_only_bind; [apply page_only_emit|]. intros _.
    apply page_only_bind; [apply page_only_emit|]. intros _.
    apply page_only_bind; [apply page_only_input_widgets|]. intros _.
    apply page_only_bind; [apply page_only_emit|]. intros _.
    apply page_only_bind.
    { apply page_only_when. intros Hc. rewrite (H0 Hc).
      apply page_only_emit. }
    intros _.
    apply page_only_bind; [apply page_only_emit|]. intros _.
    apply page_only_bind; [apply page_only_ret|]. intros _.
    apply page_only_bind; [apply page_only_emit|]. intros _.
    apply page_only_bind; [apply page_only_ret|]. intros _.
    apply page_only_bind; [apply page_only_emit|]. intros _.
    apply page_only_bind; [apply page_only_ret|]. intros _.
    apply page_only_bind; [apply page_only_render_transcript|]. intros _.
    apply page_only_bind; [apply page_only_render_download|]. intros _.
    apply page_only_bind; [apply page_only_render_activity|]. intros _.
    apply page_only_emit. }
  apply P in H. destruct H as [S1 [W1 [C1 _]]]. auto.
Qed.

Lemma render_activity_run (r : Run) :
  render_activity r
  = (mkRun (session r) (widget_keys r)
           (ui r ++ match status_log (session r) with
                    | [] => []
                    | _ :: _ =>
                        Subheader (lit "Activity")
                        :: map WriteItem
                             (firstn 10 (rev (status_log (session r))))
                    end)
           (world r) (calls r),
     Ok tt).
Proof.
  unfold render_activity, bind, session_get.
  destruct (status_log (session r)) as [|e log'] eqn:El.
  - unfold ret. rewrite app_nil_r. destruct r; reflexivity.
  - unfold emit at 1. rewrite for_each_write.
    cbn [session widget_keys ui world calls].
    rewrite activity_items_most_recent, <- app_assoc. reflexivity.
Qed.

(** X16. An entry appended to the status log is the first item of the
    activity feed rendered next, followed by the nine most recent of the
    earlier entries. *)
Theorem appended_entry_heads_the_feed (r : Run) (entry : str) :
  render_activity (fst (status_log_append entry r))
  = (mkRun (session (fst (status_log_append entry r))) (widget_keys r)
           (ui r ++ Subheader (lit "Activity") :: WriteItem entry
                 :: map WriteItem (firstn 9 (rev (status_log (session r)))))
           (world r) (calls r),
     Ok tt).
Proof.
  rewrite render_activity_run. run_fields.
  destruct (status_log (session r) ++ [entry]) eqn:E;
    [destruct (status_log (session r)); discriminate E|].
  rewrite <- E, rev_app_distr. reflexivity.
Qed.

(** ** Clear Transcript, in the script *)

Lemma render_transcript_run (r : Run) :
  render_transcript r
  = (mkRun (session r) (widget_keys r)
           (ui r ++ [Divider; Subheader (lit "Transcript");
                     TextArea (lit "Transcribed text (copy this)")
                              (transcript (session r)) None])
           (world r) (calls r),
     Ok tt).
Proof.
  unfold render_transcript, bind, emit, session_get.
  cbn [session widget_keys ui world calls].
  rewrite <- !app_assoc. reflexivity.
Qed.

(** X17. In every session, a run in which Clear Transcript is the button
    pressed completes; it leaves an empty transcript and one new log
    entry, shows an empty transcript area followed at once by the
    activity feed, whose first item is the new entry, and renders no
    download control anywhere on the page. *)
Theorem clear_transcript_click_empties_the_page
  (s : Session) (w : World) (file : option UploadedFile) :
  let cleared := [129532] ++ lit " Cleared transcript" in
  exists r' before after,
    script (mkInputs file false false false true) (start_run s w)
    = (r', Ok tt)
    /\ session r'
       = mkSession (uploader_version s) (links_input s) []
                   (status_log s ++ [cleared])
    /\ ui r'
       = before
         ++ [Divider; Subheader (lit "Transcript");
             TextArea (lit "Transcribed text (copy this)") [] None;
             Subheader (lit "Activity"); WriteItem cleared]
         ++ after
    /\ (forall label data file_name mime,
          ~ In (DownloadButton label data file_name mime) (ui r')).
Proof.
  intros cleared. unfold script, start_run.
  unfold bind at 1, emit at 1. unfold bind at 1, emit at 1.
  cbn [session widget_keys ui world calls].
  unfold bind at 1.
  match goal with
  | |- context [input_widgets ?r0] =>
      pose proof (eq_refl (input_widgets r0)) as E;
      unfold input_widgets at 2 in E;
      unfold bind, emit, session_get, register_widget in E;
      cbn [session widget_keys ui world calls] in E
  end.
  rewrite E. clear E.
  cbn [click_transcribe_upload click_transcribe_links click_clear_links
         click_clear_transcript].
  unfold bind at 1, emit at 1. unfold bind at 1, when at 1, ret at 1.
  unfold bind at 1, emit at 1. unfold bind at 1, when at 1, ret at 1.
  unfold bind at 1, emit at 1. unfold bind at 1, when at 1, ret at 1.
  unfold bind at 1, emit at 1. unfold bind at 1, when at 1.
  cbn [session widget_keys ui world calls app].
  rewrite clear_transcript_handler_run.
  2:{ apply (handlers_context _ (uploader_version s)). reflexivity. }
  cbn [session widget_keys ui world calls uploader_version links_input
         transcript status_log].
  unfold bind at 1. rewrite render_transcript_run.
  cbn [session widget_keys ui world calls transcript].
  unfold bind at 1. rewrite render_download_run.
  cbn [session widget_keys ui world calls transcript].
  unfold bind at 1. rewrite render_activity_run.
  cbn [session widget_keys ui world calls status_log].
  destruct (status_log s ++ [[129532] ++ lit " Cleared transcript"]) eqn:El;
    [destruct (status_log s); discriminate El|].
  rewrite <- El, rev_app_distr. cbn [rev app]. rewrite firstn_cons.
  cbn [map]. unfold emit. cbn [session widget_keys ui world calls].
  match goal with
  | |- exists r' before after, (?R, Ok tt) = (r', Ok tt) /\ _ => exists R
  end.
  cbn [session ui app].
  match goal with
  | |- exists before after,
        _ /\ _ /\
        ?a :: ?b :: ?c :: ?d :: ?e :: ?f :: ?g :: ?h :: ?i :: ?j
        :: _ :: _ :: _ :: _ :: _ :: ?rest
        = _ /\ _ =>
      exists [a; b; c; d; e; f; g; h; i; j], rest
  end.
  split; [reflexivity|]. split; [reflexivity|]. split; [reflexivity|].
  intros label data file_name mime H.
  do 15 (destruct H as [H|H]; [inversion H|]).
  apply in_app_or in H. destruct H as [H|H].
  - apply in_map_iff in H. destruct H as [x [H _]]. inversion H.
  - destruct H as [H|[]]. inversion H.
Qed.

(** ** The download control and its encoding *)

Lemma utf8_char_some_scalar (c : codepoint) (b : bytes) :
  utf8_char c = Some b -> is_scalar c = true.
Proof.
  unfold utf8_char, is_scalar.
  destruct (Z.ltb_spec c 0); [discriminate|].
  destruct (Z.leb_spec 0 c); [|lia].
  destruct (Z.ltb_spec c 55296); [reflexivity|].
  destruct (Z.ltb_spec c 128); [lia|].
  destruct (Z.ltb_spec c 2048); [lia|].
  destruct (Z.leb_spec 55296 c); [|lia].
  destruct (Z.leb_spec 57344 c); destruct (Z.ltb_spec c 57344); try lia;
    cbn [andb orb]; [|discriminate].
  destruct (Z.ltb_spec c 65536); [destruct (Z.ltb_spec c 1114112); [auto|lia]|].
  destruct (Z.ltb_spec c 1114112); [auto | discriminate].
Qed.

Lemma utf8_some_well_formed (s : str) (data : bytes) :
  utf8 s = Some data -> well_formed s.
Proof.
  revert data; induction s as [|c s IH]; intros data; simpl.
  - intros _. constructor.
  - destruct (utf8_char c) as [b|] eqn:Ec; [|discriminate].
    destruct (utf8 s) as [bs|] eqn:Es; [|discriminate].
    intros _. constructor; [eapply utf8_char_some_scalar; exact Ec|].
    eapply IH; reflexivity.
Qed.

(** X18. Rendering the download control fails with a UnicodeEncodeError
    exactly when the transcript holds a code point that is not a Unicode
    scalar value (a lone surrogate); the run state is then as before the
    attempt, nothing having been rendered. *)
Theorem download_fails_exactly_on_ill_formed_text (r : Run) :
  (snd (render_download r) = Raise UnicodeEncodeError
   <-> ~ well_formed (transcript (session r)))
  /\ (~ well_formed (transcript (session r)) -> fst (render_download r) = r).
Proof.
  rewrite render_download_run.
  destruct (transcript (session r)) as [|c t] eqn:Et.
  - cbn [fst snd]. split; [|reflexivity]. split; [discriminate|].
    intros H. exfalso. apply H. constructor.
  - destruct (utf8 (c :: t)) as [data|] eqn:Eu; cbn [fst snd].
    + pose proof (utf8_some_well_formed _ _ Eu) as Hwf.
      split; [split; [discriminate | contradiction] | contradiction].
    + split; [|reflexivity]. split; [|reflexivity].
      intros _ Hwf. destruct (utf8_well_formed _ Hwf) as [d Hd]. congruence.
Qed.

Lemma utf8_char_length (c : codepoint) (b : bytes) :
  utf8_char c = Some b -> (1 <= List.length b <= 4)%nat.
Proof.
  intros H. apply utf8_char_bytes in H.
  destruct H as [[_ ->]|[[_ ->]|[[_ ->]|[_ ->]]]]; simpl; lia.
Qed.

(** X19. What [encode("utf-8")] produces for the download holds bytes
    only, takes between one and four bytes per character, and loses
    nothing: decoding it gives the transcript back. *)
Theorem utf8_download_round_trip (s : str) (data : bytes) :
  encode_utf8 s = Ok data ->
  utf8_decode data = Some s
  /\ Forall (fun b => 0 <= b < 256) data
  /\ (List.length s <= List.length data <= 4 * List.length s)%nat.
Proof.
  unfold encode_utf8. destruct (utf8 s) as [d|] eqn:E; [|discriminate].
  intros [= <-]. split; [apply utf8_decode_utf8; exact E|].
  revert d E. induction s as [|c s IH]; intros d; simpl.
  - intros [= <-]. split; [constructor | simpl; lia].
  - destruct (utf8_char c) as [b|] eqn:Ec; [|discriminate].
    destruct (utf8 s) as [bs|]; [|discriminate].
    intros [= <-]. destruct (IH bs eq_refl) as [F L].
    pose proof (utf8_char_length c b Ec).
    split; [apply Forall_app; split; [eapply utf8_char_range; exact Ec | exact F]|].
    rewrite length_app. lia.
Qed.

(** X20. The key of the upload widget identifies the version: two
    versions give the same key only when they are equal, so every
    increment of the version gives a key not used before, and no version
    gives the key of the link text area. *)
Theorem upload_widget_key_identifies_version (a b : Z) :
  (uploader_key a = uploader_key b <-> a = b)
  /\ (a < b -> uploader_key a <> uploader_key b)
  /\ uploader_key a <> links_key.
Proof.
  split; [|split].
  - split; [apply uploader_key_inj | intros ->; reflexivity].
  - intros Hlt H. apply uploader_key_inj in H. lia.
  - unfold uploader_key, links_key. simpl. discriminate.
Qed.

(** ** Transcribe Links, in the script *)

(** X21. A run in which Transcribe Links is the button pressed, on a
    batch whose failures are all caught and of which a link succeeds:
    however the rendering ends, the session state holds the new
    transcript, and the transcript area rendered in that same run shows
    it. *)
Theorem transcribe_links_click_shows_the_transcript
  (s : Session) (w : World) (file : option UploadedFile) (links : list str)
  (r' : Run) (res : result unit) :
  let tmp_dir := path_of (snd (tmp_create w)) in
  let outcomes := link_outcomes tmp_dir links (fst (tmp_create w)) in
  let fresh := join (newline ++ newline) (sections_of outcomes) in
  split_links (links_input s) = links ->
  Forall survivable outcomes ->
  existsb succeeded outcomes = true ->
  script (mkInputs file false true false false) (start_run s w) = (r', res) ->
  transcript (session r') = fresh
  /\ exists before after,
      ui r'
      = before
        ++ [Divider; Subheader (lit "Transcript");
            TextArea (lit "Transcribed text (copy this)") fresh None]
        ++ after.
Proof.
  intros tmp_dir outcomes fresh El Hs Hsome.
  assert (links <> []) as Hne.
  { intros ->. subst outcomes. discriminate Hsome. }
  assert (transcript_after (transcript s) outcomes = fresh) as Hfresh.
  { unfold transcript_after. destruct (sections_of outcomes) eqn:Es;
      [|reflexivity].
    apply sections_of_nil_iff in Es. congruence. }
  unfold script, start_run.
  unfold bind at 1, emit at 1. unfold bind at 1, emit at 1.
  cbn [session widget_keys ui world calls].
  unfold bind at 1.
  match goal with
  | |- context [input_widgets ?r0] =>
      pose proof (eq_refl (input_widgets r0)) as E;
      unfold input_widgets at 2 in E;
      unfold bind, emit, session_get, register_widget in E;
      cbn [session widget_keys ui world calls] in E
  end.
  rewrite E. clear E.
  cbn [click_transcribe_upload click_transcribe_links click_clear_links
         click_clear_transcript].
  unfold bind at 1, emit at 1. unfold bind at 1, when at 1, ret at 1.
  unfold bind at 1, emit at 1. unfold bind at 1, when at 1.
  cbn [session widget_keys ui world calls app].
  rewrite (transcribe_links_handler_explicit _ links).
  2:{ cbn [session world]. exact El. }
  2:{ exact Hne. }
  2:{ apply (handlers_context _ (uploader_version s)). reflexivity. }
  2:{ cbn [session world]. exact Hs. }
  cbn [session world]. fold tmp_dir. fold outcomes. rewrite Hfresh.
  unfold bind at 1, emit at 1. unfold bind at 1, when at 1, ret at 1.
  unfold bind at 1, emit at 1. unfold bind at 1, when at 1, ret at 1.
  cbn [session widget_keys ui world calls].
  unfold bind at 1. rewrite render_transcript_run.
  cbn [session widget_keys ui world calls transcript].
  intros H.
  assert (page_only
            (bind render_download
               (fun _ =>
                  bind render_activity
                    (fun _ =>
                       emit (InfoBox (lit "Tip: The first transcription may be slower while the speech model downloads. For very long videos, leave the tab open until processing completes.")))))) as P.
  { apply page_only_bind; [apply page_only_render_download|]. intros _.
    apply page_only_bind; [apply page_only_render_activity|]. intros _.
    apply page_only_emit. }
  apply P in H. destruct H as [S1 [_ [_ [added U]]]].
  cbn [session ui] in S1, U. rewrite S1. split; [reflexivity|].
  match type of U with
  | ui r' = (?L ++ _) ++ _ => exists L, added
  end.
  rewrite U, <- app_assoc. reflexivity.
Qed.

End MoreProperties.

(** ** The further properties at work on the simulated collaborators *)

Lemma split_links_empty_iff_whitespace_witness :
  split_links ([32; 9] ++ [13; 10] ++ [12288]) = [].
Proof.
  apply (proj2 (split_links_empty_iff_whitespace _)). reflexivity.
Defined.

Lemma split_links_yields_clean_links_witness :
  In (lit "bad") (split_links Sim.pasted)
  /\ strip (lit "bad") = lit "bad".
Proof.
  assert (In (lit "bad") (split_links Sim.pasted)) as H
      by (right; left; reflexivity).
  split; [exact H|].
  exact (proj1 (proj2 (split_links_yields_clean_links Sim.pasted _ H))).
Defined.

Lemma split_links_round_trip_witness :
  Forall clean_link [lit "https://a"; lit "raw"]
  /\ split_links (join newline [lit "https://a"; lit "raw"])
     = [lit "https://a"; lit "raw"].
Proof.
  assert (Forall clean_link [lit "https://a"; lit "raw"]) as H.
  { repeat constructor; try discriminate;
      intros c Hc; simpl in Hc;
      repeat (destruct Hc as [<-|Hc]; [reflexivity|]); destruct Hc. }
  split; [exact H|]. exact (proj1 (split_links_round_trip _ H)).
Defined.

Lemma transcribe_media_text_is_trimmed_witness :
  exists t,
    snd (transcribe_media (lit "/tmp/t/clip.mp3")
           (Sim.at_handlers Sim.session0)) = Ok t
    /\ strip t = t.
Proof.
  destruct (transcribe_media_text_is_trimmed
              (C := Sim.collaborators) (Sim.at_handlers Sim.session0)
              (lit "/tmp/t/clip.mp3") [] [] tt Sim.sim_segments
              eq_refl eq_refl) as [t [E [S _]]].
  exists t. split; [exact E | exact S].
Defined.

Lemma failed_download_skips_transcription_witness :
  @calls_of Sim.collaborators _
    (@fetch_text Sim.collaborators (lit "bad") (lit "/tmp/t")) []
  = [CallExtractInfo (lit "bad")].
Proof.
  exact (proj2 (proj2 (failed_download_skips_transcription
                         (C := Sim.collaborators)
                         (Sim.at_handlers Sim.session0) (lit "bad")
                         (lit "/tmp/t") []
                         (mkExn "DownloadError" true
                                (lit "Unsupported URL: bad"))
                         eq_refl))).
Defined.

Lemma download_link_media_of_mp3_witness :
  snd (@download_link_media (Faulty.collaborators Faulty.RuntimeError)
         (lit "song") (lit "/tmp/t")
         (Faulty.at_handlers Faulty.RuntimeError Sim.session0))
  = Ok (lit "/tmp/t/song.mp3").
Proof.
  apply (download_link_media_of_mp3
           (C := Faulty.collaborators Faulty.RuntimeError)
           (Faulty.at_handlers Faulty.RuntimeError Sim.session0)
           (lit "song") (lit "/tmp/t")
           [lit "/tmp/t/song.mp3"] [lit "/tmp/t/song.mp3"]
           (lit "/tmp/t/song.mp3") (lit "/tmp/t/song.mp3"));
    reflexivity.
Defined.

Lemma download_link_media_without_extension_witness :
  snd (@download_link_media (Faulty.collaborators Faulty.RuntimeError)
         (lit "noext") (lit "/tmp/t")
         (Faulty.at_handlers Faulty.RuntimeError Sim.session0))
  = Ok (lit "/tmp/t/noext").
Proof.
  rewrite (download_link_media_without_extension
             (C := Faulty.collaborators Faulty.RuntimeError)
             (Faulty.at_handlers Faulty.RuntimeError Sim.session0)
             (lit "noext") (lit "/tmp/t")
             [lit "/tmp/t/noext"] [lit "/tmp/t/noext"]
             (lit "/tmp/t/noext") (lit "/tmp/t/noext") eq_refl eq_refl).
  - reflexivity.
  - simpl. intros H.
    repeat (destruct H as [H|H]; [discriminate H|]). exact H.
Defined.

Lemma upload_failure_shows_error_and_keeps_state_witness :
  let r := Faulty.at_handlers Faulty.RuntimeError Sim.session0 in
  exists r',
    transcribe_upload_handler (Some (mkUploadedFile (lit "raw.webm") [1; 2])) r
    = (r', Ok tt)
    /\ session r' = Sim.session0.
Proof.
  intros r.
  destruct (upload_failure_shows_error_and_keeps_state
              (C := Faulty.collaborators Faulty.RuntimeError) r
              (mkUploadedFile (lit "raw.webm") [1; 2])
              [lit "/tmp/t/raw.webm"] Faulty.RuntimeError
              eq_refl eq_refl eq_refl) as [r' [E [S _]]].
  exists r'. split; [exact E | exact S].
Defined.

Lemma upload_write_failure_propagates_witness :
  let r := Faulty.at_handlers Faulty.RuntimeError Sim.session0 in
  snd (transcribe_upload_handler
         (Some (mkUploadedFile (lit "locked.mp4") [1; 2])) r)
  = Raise Faulty.OSError.
Proof.
  intros r.
  rewrite (upload_write_failure_propagates
             (C := Faulty.collaborators Faulty.RuntimeError) r
             (mkUploadedFile (lit "locked.mp4") [1; 2]) [] Faulty.OSError
             eq_refl).
  reflexivity.
Defined.

Lemma transcribe_links_keeps_inputs_witness :
  let r := Sim.at_handlers Sim.session0 in
  links_input (session (fst (transcribe_links_handler r))) = Sim.pasted.
Proof.
  intros r.
  exact (proj1 (transcribe_links_keeps_inputs
                  (C := Sim.collaborators) r _ _ (surjective_pairing _))).
Defined.

Lemma transcribe_links_tries_each_link_once_witness :
  let r := Sim.at_handlers Sim.session0 in
  exists r' added,
    transcribe_links_handler r = (r', Ok tt)
    /\ calls r' = calls r ++ added
    /\ filter is_extract_info added
       = [CallExtractInfo (lit "https://a"); CallExtractInfo (lit "bad");
          CallExtractInfo (lit "raw")].
Proof.
  intros r.
  apply (transcribe_links_tries_each_link_once
           (C := Sim.collaborators) r
           [lit "https://a"; lit "bad"; lit "raw"] eq_refl).
  - discriminate.
  - reflexivity.
  - vm_compute. repeat constructor.
Defined.

Lemma transcribe_links_interrupted_witness :
  let r :=
    Faulty.at_handlers Faulty.KeyboardInterrupt
      (mkSession 0 (lit "https://a" ++ [10] ++ lit "raw" ++ [10]
                    ++ lit "https://b")
                 (lit "old") []) in
  exists r',
    transcribe_links_handler r = (r', Raise Faulty.KeyboardInterrupt)
    /\ transcript (session r') = lit "old"
    /\ status_log (session r') = [success_entry (lit "https://a")].
Proof.
  intros r.
  destruct (transcribe_links_interrupted
              (C := Faulty.collaborators Faulty.KeyboardInterrupt) r
              [lit "https://a"] (lit "raw") [lit "https://b"]
              Faulty.KeyboardInterrupt eq_refl)
    as [r' [E [T [L _]]]].
  - vm_compute. repeat constructor.
  - reflexivity.
  - reflexivity.
  - exists r'. split; [exact E|]. split; [exact T | exact L].
Defined.

Lemma transcribe_links_counts_progress_witness :
  let r := Sim.at_handlers Sim.session0 in
  exists r',
    transcribe_links_handler r = (r', Ok tt)
    /\ ui r'
       = [Spinner (lit "Downloading + transcribing link 1/3...");
          Spinner (lit "Downloading + transcribing link 2/3...");
          Spinner (lit "Downloading + transcribing link 3/3...")].
Proof.
  intros r.
  apply (transcribe_links_counts_progress
           (C := Sim.collaborators) r
           [lit "https://a"; lit "bad"; lit "raw"] eq_refl).
  - discriminate.
  - reflexivity.
  - vm_compute. repeat constructor.
Defined.

Lemma quiet_run_changes_nothing_witness :
  let inp := mkInputs None true false false false in
  session (fst (script inp (@start_run Sim.collaborators Sim.session0 [])))
  = Sim.session0.
Proof.
  intros inp.
  refine (proj1 (quiet_run_changes_nothing
                   (C := Sim.collaborators) inp Sim.session0 [] _ _
                   eq_refl eq_refl eq_refl (fun _ => eq_refl)
                   (surjective_pairing _))).
Defined.

Lemma download_fails_exactly_on_ill_formed_text_witness :
  let r :=
    @mkRun Sim.collaborators (mkSession 0 [] [104; 55296] []) [] [] [] [] in
  ~ well_formed (transcript (session r))
  /\ render_download r = (r, Raise UnicodeEncodeError).
Proof.
  intros r.
  assert (~ well_formed (transcript (session r))) as H.
  { intros H. inversion H as [|? ? _ H2]; subst.
    inversion H2 as [|? ? H3 _]; subst. discriminate H3. }
  split; [exact H|].
  pose proof (download_fails_exactly_on_ill_formed_text
                (C := Sim.collaborators) r) as [[_ A] B].
  rewrite (surjective_pairing (render_download r)), (A H), (B H).
  reflexivity.
Defined.

Lemma utf8_download_round_trip_witness :
  encode_utf8 [233; 9989] = Ok [195; 169; 226; 156; 133]
  /\ utf8_decode [195; 169; 226; 156; 133] = Some [233; 9989].
Proof.
  split; [reflexivity|].
  exact (proj1 (utf8_download_round_trip [233; 9989] _ eq_refl)).
Defined.

Lemma upload_widget_key_identifies_version_witness :
  0 < 1 /\ uploader_key 0 <> uploader_key 1.
Proof.
  split; [lia|].
  apply (proj1 (proj2 (upload_widget_key_identifies_version 0 1))). lia.
Defined.

Lemma transcribe_links_click_shows_the_transcript_witness :
  let run :=
    script (mkInputs None false true false false)
           (@start_run Sim.collaborators Sim.session0 []) in
  transcript (session (fst run))
  = section_of (lit "https://a") (lit "hello" ++ [10] ++ lit "world")
    ++ [10; 10]
    ++ section_of (lit "raw") (lit "hello" ++ [10] ++ lit "world").
Proof.
  intros run.
  refine (proj1 (transcribe_links_click_shows_the_transcript
                   (C := Sim.collaborators) Sim.session0 [] None
                   [lit "https://a"; lit "bad"; lit "raw"] _ _
                   eq_refl _ eq_refl (surjective_pairing _))).
  vm_compute. repeat constructor.
Defined.
